(** * Nomadix: the metrics and insight computations of the tourism dashboard

    A shallow embedding of the data path of [src/app.py] ([main]) and of the
    output of [src/run_simple.py], with the properties the specification
    states about them.

    Modelling conventions.
    - A pandas [DataFrame] is the list of its rows, in row order.  Its
      columns keep their dtype (int64, float64, datetime64, str) also when it
      has no rows, as they do in a frame obtained by masking.  Row labels are
      not modelled: no operation used here reads them, except [idxmax] on
      series whose labels are their positions or their group keys.
    - [main] is modelled from line 132 on, as a function of the frame bound
      at line 130 and of the values of the two sidebar widgets.  The loader
      itself is not modelled: [load_sample_data] draws random numbers, and as
      shipped it reads the name [np], which is bound only inside [main]
      (line 129), so calling it raises [NameError].  The properties below
      hold of the code that follows the loader, for any frame in its place.
    - A [Timestamp] is the number of days since 1970-01-01 ([Z]); [NaT] is
      [None].  [timedelta(days=n)] is [n].
    - An integer column holds [Z] values; int64 overflow is not modelled.
    - A float64 value is an exact rational ([Qc]) or one of the IEEE special
      values NaN, +inf, -inf.  Rounding, overflow and the sign of zero are not
      modelled; what is modelled is where the special values arise and how
      they propagate, which is what the properties below are about.
    - Python strings are [string]s holding their UTF-8 bytes; comparing them
      bytewise is comparing them by code point, as Python does.
    - Layout and chart calls ([st.columns], [px.bar], ...) compute nothing
      the properties read; they are left out of [main] and taken not to
      raise.  Of the script's output only the insight boxes are kept. *)

From Stdlib Require Import ZArith QArith Qcanon List String Ascii Bool Lia.
From Stdlib Require Import OrdersEx RelationClasses Sorted.
From Stdlib Require Import Permutation.
Import ListNotations.

Local Open Scope string_scope.
Local Open Scope Z_scope.

(** ** float64 values *)

Inductive float : Type :=
| Fin (q : Qc)
| PInf
| NInf
| NaN.

Definition Qcsign (q : Qc) : comparison := Qccompare q (Q2Qc 0).

Definition fopp (x : float) : float :=
  match x with
  | Fin q => Fin (- q)%Qc
  | PInf => NInf
  | NInf => PInf
  | NaN => NaN
  end.

Definition fadd (x y : float) : float :=
  match x, y with
  | NaN, _ | _, NaN => NaN
  | Fin a, Fin b => Fin (a + b)%Qc
  | PInf, NInf | NInf, PInf => NaN
  | PInf, _ | _, PInf => PInf
  | NInf, _ | _, NInf => NInf
  end.

Definition fsub (x y : float) : float := fadd x (fopp y).

(** The product of an infinity and a value of the given sign. *)
Definition inf_times (s : comparison) (positive : bool) : float :=
  match s with
  | Eq => NaN
  | Gt => if positive then PInf else NInf
  | Lt => if positive then NInf else PInf
  end.

Definition fmul (x y : float) : float :=
  match x, y with
  | NaN, _ | _, NaN => NaN
  | Fin a, Fin b => Fin (a * b)%Qc
  | PInf, Fin b => inf_times (Qcsign b) true
  | NInf, Fin b => inf_times (Qcsign b) false
  | Fin a, PInf => inf_times (Qcsign a) true
  | Fin a, NInf => inf_times (Qcsign a) false
  | PInf, PInf | NInf, NInf => PInf
  | PInf, NInf | NInf, PInf => NInf
  end.

(** numpy's float64 division: a zero divisor gives an infinity, or NaN for
    0/0, and raises nothing. *)
Definition fdiv (x y : float) : float :=
  match x, y with
  | NaN, _ | _, NaN => NaN
  | Fin a, Fin b =>
      match Qcsign b with
      | Eq => inf_times (Qcsign a) true
      | _ => Fin (a / b)%Qc
      end
  | Fin _, _ => Fin (Q2Qc 0)
  | PInf, Fin b => match Qcsign b with Lt => NInf | _ => PInf end
  | NInf, Fin b => match Qcsign b with Lt => PInf | _ => NInf end
  | _, _ => NaN
  end.

Definition fabs (x : float) : float :=
  match x with
  | Fin q => Fin (match Qcsign q with Lt => (- q)%Qc | _ => q end)
  | PInf | NInf => PInf
  | NaN => NaN
  end.

(** [x > y]; every comparison with NaN is false. *)
Definition fgtb (x y : float) : bool :=
  match x, y with
  | NaN, _ | _, NaN => false
  | Fin a, Fin b => match Qccompare a b with Gt => true | _ => false end
  | PInf, PInf => false
  | PInf, _ => true
  | Fin _, NInf => true
  | _, _ => false
  end.

Definition is_finite (x : float) : bool :=
  match x with Fin _ => true | _ => false end.

Definition Qc_of_Z (z : Z) : Qc := Q2Qc (inject_Z z).

(** The float64 of an integer. *)
Definition of_int (z : Z) : float := Fin (Qc_of_Z z).

(** ** The data frame of [load_sample_data] *)

Definition Timestamp := Z.

Record Row : Type := mkRow {
  data : Timestamp;
  provincia : string;
  visitantes : Z;
  receita : Qc;
  estadia_media : Qc;
  satisfacao : Qc
}.

Definition DataFrame := list Row.

(** ** Series reductions *)

(** [Series.max()] and [Series.min()] of a datetime column: [NaT] when the
    column is empty. *)
Definition series_max (s : list Timestamp) : option Timestamp :=
  match s with
  | [] => None
  | d :: s' => Some (fold_left Z.max s' d)
  end.

Definition series_min (s : list Timestamp) : option Timestamp :=
  match s with
  | [] => None
  | d :: s' => Some (fold_left Z.min s' d)
  end.

(** [NaT - timedelta(days=n)] is [NaT]. *)
Definition minus_days (t : option Timestamp) (n : Z) : option Timestamp :=
  option_map (fun d => d - n) t.

(** [df['data'] >= t], row by row: false against [NaT]. *)
Definition ge_timestamp (d : Timestamp) (t : option Timestamp) : bool :=
  match t with
  | Some t' => t' <=? d
  | None => false
  end.

(** ** Filters (app.py, lines 132-147) *)

(** [df['provincia'].isin(provincias_selecionadas)] *)
Definition isin (p : string) (sel : list string) : bool :=
  existsb (String.eqb p) sel.

(** Lines 133-134: the mask is applied only when the selection is truthy,
    that is non-empty. *)
Definition province_filter (provincias_selecionadas : list string)
    (df : DataFrame) : DataFrame :=
  match provincias_selecionadas with
  | [] => df
  | _ :: _ => filter (fun r => isin (provincia r) provincias_selecionadas) df
  end.

(** Lines 137-145. *)
Definition data_inicio (periodo : string) (df : DataFrame) : option Timestamp :=
  let hoje := series_max (map data df) in
  if (periodo =? "Últimos 6 meses")%string then minus_days hoje 180
  else if (periodo =? "Último ano")%string then minus_days hoje 365
  else if (periodo =? "Últimos 2 anos")%string then minus_days hoje 730
  else series_min (map data df).

(** Line 147. *)
Definition period_filter (periodo : string) (df : DataFrame) : DataFrame :=
  filter (fun r => ge_timestamp (data r) (data_inicio periodo df)) df.

(** Lines 132-147 as one function of the loaded frame and the two widgets. *)
Definition df_filtrado (periodo : string) (provincias_selecionadas : list string)
    (df : DataFrame) : DataFrame :=
  period_filter periodo (province_filter provincias_selecionadas df).

(** The window of a bounded period option, in days. *)
Definition window (periodo : string) : option Z :=
  if (periodo =? "Últimos 6 meses")%string then Some 180
  else if (periodo =? "Último ano")%string then Some 365
  else if (periodo =? "Últimos 2 anos")%string then Some 730
  else None.

(** ** Exceptions and output

    A run emits events one after the other and either finishes with a value
    or stops at the first exception; what was emitted before stays emitted. *)

Inductive exception : Type :=
| ValueError
| KeyError
| IndexError.

Inductive result (A : Type) : Type :=
| Ok (a : A)
| Raise (e : exception).

Arguments Ok {A} a.
Arguments Raise {A} e.

Definition Run (E A : Type) : Type := (list E * result A)%type.

Definition ret {E A : Type} (a : A) : Run E A := ([], Ok a).

Definition emit {E : Type} (e : E) : Run E unit := ([e], Ok tt).

Definition lift {E A : Type} (r : result A) : Run E A := ([], r).

Definition bind {E A B : Type} (m : Run E A) (k : A -> Run E B) : Run E B :=
  match m with
  | (out, Ok a) => let (out', r) := k a in ((out ++ out')%list, r)
  | (out, Raise e) => (out, Raise e)
  end.

Declare Scope run_scope.
Delimit Scope run_scope with run.
Notation "x <- m ;; k" := (bind m (fun x => k))
  (at level 61, m at next level, right associativity) : run_scope.
Notation "m ;;; k" := (bind m (fun _ => k))
  (at level 61, right associativity) : run_scope.

Definition emitted {E A : Type} (m : Run E A) : list E := fst m.
Definition outcome {E A : Type} (m : Run E A) : result A := snd m.

(** ** Windows and means (app.py, lines 155-157, 175, 183) *)

(** [Series.head(n)] is [iloc[:n]]; [Series.tail(n)] is [iloc[-n:]] for
    [n > 0]. *)
Definition head {A : Type} (n : nat) (s : list A) : list A := firstn n s.

Definition tail {A : Type} (n : nat) (s : list A) : list A :=
  skipn (List.length s - n) s.

Definition sum (s : list Z) : Z := fold_left Z.add s 0.

Definition qsum (s : list Qc) : Qc := fold_left Qcplus s (Q2Qc 0).

(** [Series.mean()]: the sum over the count, NaN (0/0) for an empty series. *)
Definition mean (s : list Z) : float :=
  fdiv (of_int (sum s)) (of_int (Z.of_nat (List.length s))).

Definition mean_float (s : list Qc) : float :=
  fdiv (Fin (qsum s)) (of_int (Z.of_nat (List.length s))).

(** Lines 156-157, as a function of the column it reads. *)
Definition delta_percent (s : list Z) : float :=
  fmul (fsub (fdiv (mean (tail 3 s)) (mean (head 3 s))) (of_int 1)) (of_int 100).

Definition delta_visitantes (df_filtrado : DataFrame) : float :=
  delta_percent (map visitantes df_filtrado).

Definition total_visitantes (df_filtrado : DataFrame) : Z :=
  sum (map visitantes df_filtrado).

(** Lines 175 and 183. *)
Definition means (df_filtrado : DataFrame) : float * float :=
  (mean_float (map estadia_media df_filtrado),
   mean_float (map satisfacao df_filtrado)).

(** Line 187. *)
Definition satisfacao_label (satisfacao_media : float) : string :=
  if fgtb satisfacao_media (of_int 4) then "Bom" else "Regular".

(** ** groupby (sorted by key, which is pandas' default) *)

Section GroupBy.
Context {K V : Type} (cmp : K -> K -> comparison).

(** The groups in ascending key order, each with its values in row order. *)
Fixpoint add_to_group (k : K) (v : V) (g : list (K * list V)) : list (K * list V) :=
  match g with
  | [] => [(k, [v])]
  | (k', vs) :: g' =>
      match cmp k k' with
      | Lt => (k, [v]) :: g
      | Eq => (k', (vs ++ [v])%list) :: g'
      | Gt => (k', vs) :: add_to_group k v g'
      end
  end.

Definition groupby (rows : list (K * V)) : list (K * list V) :=
  fold_left (fun g kv => add_to_group (fst kv) (snd kv) g) rows [].

End GroupBy.

(** [df.groupby(key)[col].sum()] and [.mean()] for an integer column. *)
Definition groupby_sum {K : Type} (cmp : K -> K -> comparison)
    (rows : list (K * Z)) : list (K * Z) :=
  map (fun g => (fst g, sum (snd g))) (groupby cmp rows).

Definition groupby_mean {K : Type} (cmp : K -> K -> comparison)
    (rows : list (K * Z)) : list (K * float) :=
  map (fun g => (fst g, mean (snd g))) (groupby cmp rows).

(** ** idxmax *)

Section IdxMax.
Context {L V : Type} (gtb : V -> V -> bool).

(** The first entry holding the maximum: a later entry replaces the current
    one only when it is strictly greater. *)
Fixpoint argmax_from (best : L * V) (rest : list (L * V)) : L * V :=
  match rest with
  | [] => best
  | x :: rest' =>
      if gtb (snd x) (snd best) then argmax_from x rest' else argmax_from best rest'
  end.

(** [Series.idxmax()]: the label of the first maximum; [ValueError] on an
    empty series. *)
Definition idxmax (s : list (L * V)) : result L :=
  match s with
  | [] => Raise ValueError
  | x :: rest => Ok (fst (argmax_from x rest))
  end.

End IdxMax.

Definition is_nan (x : float) : bool :=
  match x with NaN => true | _ => false end.

(** [idxmax] of a float series skips NaN entries; a series with nothing left
    is treated as the empty one. *)
Definition idxmax_float {L : Type} (s : list (L * float)) : result L :=
  idxmax fgtb (filter (fun x => negb (is_nan (snd x))) s).

(** A series with the default index: the labels are the positions. *)
Definition enumerate {A : Type} (s : list A) : list (nat * A) :=
  combine (seq 0 (List.length s)) s.

(** [df.loc[label, col]] on a frame with the default index. *)
Definition loc {R A : Type} (df : list R) (label : nat) (col : R -> A) : result A :=
  match nth_error df label with
  | Some r => Ok (col r)
  | None => Raise KeyError
  end.

(** ** Calendar month of a timestamp ([.dt.month]) *)

(** The month, 1 to 12, of the proleptic Gregorian date that lies [d] days
    from 1970-01-01. *)
Definition month_of (d : Timestamp) : Z :=
  let z := d + 719468 in
  let doe := z mod 146097 in
  let yoe := (doe - doe / 1460 + doe / 36524 - doe / 146096) / 365 in
  let doy := doe - (365 * yoe + yoe / 4 - yoe / 100) in
  let mp := (5 * doy + 2) / 153 in
  if mp <? 10 then mp + 3 else mp - 9.

(** ** Grouped aggregates (app.py, lines 218, 258-264) *)

Definition string_compare : string -> string -> comparison := String_as_OT.compare.

(** [df_filtrado.groupby('provincia')['visitantes'].sum()] *)
Definition by_province (df_filtrado : DataFrame) : list (string * Z) :=
  groupby_sum string_compare (map (fun r => (provincia r, visitantes r)) df_filtrado).

(** Lines 258-260: [groupby('mes')['visitantes'].mean()]. *)
Definition by_month (df_filtrado : DataFrame) : list (Z * float) :=
  groupby_mean Z.compare (map (fun r => (month_of (data r), visitantes r)) df_filtrado).

Definition meses : list string :=
  ["Jan"; "Fev"; "Mar"; "Abr"; "Mai"; "Jun";
   "Jul"; "Ago"; "Set"; "Out"; "Nov"; "Dez"].

(** Python's [l[i]]: a negative index counts from the end, an index outside
    the list raises [IndexError]. *)
Definition getitem {A : Type} (l : list A) (i : Z) : result A :=
  let j := if i <? 0 then i + Z.of_nat (List.length l) else i in
  if j <? 0 then Raise IndexError
  else match nth_error l (Z.to_nat j) with
       | Some a => Ok a
       | None => Raise IndexError
       end.

Record SazonalRow : Type := mkSazonal {
  mes : Z;
  visitantes_media : float;
  mes_nome : string
}.

(** Line 264: [df_sazonal['mes'].apply(lambda x: meses[x-1])], row by row. *)
Fixpoint add_mes_nome (rows : list (Z * float)) : result (list SazonalRow) :=
  match rows with
  | [] => Ok []
  | (m, v) :: rows' =>
      match getitem meses (m - 1) with
      | Raise e => Raise e
      | Ok nome =>
          match add_mes_nome rows' with
          | Raise e => Raise e
          | Ok rest => Ok (mkSazonal m v nome :: rest)
          end
      end
  end.

Definition df_sazonal (df_filtrado : DataFrame) : result (list SazonalRow) :=
  add_mes_nome (by_month df_filtrado).

(** ** Insights (app.py, lines 283-314) *)

Inductive Insight : Type :=
| TopDestination (provincia_top : string)
| Trend (trend : string) (variacao : float)
| PeakSeason (melhor_mes : string).

(** Line 289. *)
Definition provincia_top (by_prov : list (string * Z)) : result string :=
  idxmax Z.gtb by_prov.

(** Line 308: the position of the first maximum, then the name in that row. *)
Definition melhor_mes (sazonal : list SazonalRow) : result string :=
  match idxmax_float (enumerate (map visitantes_media sazonal)) with
  | Raise e => Raise e
  | Ok i => loc sazonal i mes_nome
  end.

(** Line 299. *)
Definition trend_of (crescimento : float) : string :=
  if fgtb crescimento (of_int 0) then "crescimento" else "decrescimento".

Local Open Scope run_scope.

(** The three insight boxes, in the order the script renders them, as a
    function of the values it reads: the per-province totals, the delta of
    line 156 and the seasonality frame. *)
Definition insight_generator (by_prov : list (string * Z)) (crescimento : float)
    (sazonal : list SazonalRow) : Run Insight unit :=
  p <- lift (provincia_top by_prov) ;;
  emit (TopDestination p) ;;;
  emit (Trend (trend_of crescimento) (fabs crescimento)) ;;;
  m <- lift (melhor_mes sazonal) ;;
  emit (PeakSeason m).

(** The insight part of [main] on the filtered frame.  The seasonality frame
    is built (line 264) before the first insight is rendered. *)
Definition main_insights (df_filtrado : DataFrame) : Run Insight unit :=
  sazonal <- lift (df_sazonal df_filtrado) ;;
  insight_generator (by_province df_filtrado) (delta_visitantes df_filtrado) sazonal.

(** [main] from line 132 on: the filters and the insight section, from the
    frame bound at line 130 and the two sidebar widgets. *)
Definition main (periodo : string) (provincias_selecionadas : list string)
    (df : DataFrame) : Run Insight unit :=
  main_insights (df_filtrado periodo provincias_selecionadas df).

Local Close Scope run_scope.

(** ** Rendered text

    An f-string is kept as the list of its pieces, literal text and formatted
    values with their format specification; Python's number formatting is not
    modelled beyond what it prints for the special float values. *)

Inductive Value : Type :=
| VInt (z : Z)
| VFloat (x : float)
| VStr (s : string).

Inductive Piece : Type :=
| Lit (s : string)
| Fmt (v : Value) (spec : string).

Definition Text := list Piece.

(** What a fixed-point format prints for a float that is not finite. *)
Definition format_special (x : float) : option string :=
  match x with
  | Fin _ => None
  | PInf => Some "inf"
  | NInf => Some "-inf"
  | NaN => Some "nan"
  end.

(** The paragraph of each insight box (lines 293, 303 and 312). *)
Definition insight_text (i : Insight) : Text :=
  match i with
  | TopDestination p =>
      [Lit "<strong>"; Fmt (VStr p) "";
       Lit "</strong> é a província com maior número de visitantes no período selecionado."]
  | Trend trend variacao =>
      [Lit "O turismo está em <strong>"; Fmt (VStr trend) "";
       Lit "</strong> com variação de <strong>"; Fmt (VFloat variacao) ".1f";
       Lit "%</strong>."]
  | PeakSeason m =>
      [Lit "<strong>"; Fmt (VStr m) "";
       Lit "</strong> é o mês com maior fluxo turístico em média."]
  end.

(** ** The simplified version (run_simple.py) *)

Module Simple.

Record Row : Type := mkRow {
  Provincia : string;
  Visitantes_2023 : Z;
  Visitantes_2024 : Z;
  Receita_AOA : Z;
  Hoteis : Z;
  Satisfacao : Qc
}.

Definition DataFrame := list Row.

(** What the run finds installed, and what the two guarded library calls do:
    [set_page_config_error] and [chart_error] hold the message of the
    exception that [st.set_page_config], respectively the building of the
    first chart, raises, if it raises. *)
Record Env : Type := mkEnv {
  STREAMLIT_AVAILABLE : bool;
  PANDAS_AVAILABLE : bool;
  PLOTLY_AVAILABLE : bool;
  set_page_config_error : option string;
  chart_error : option string
}.

(** The output calls.  Markup that the script passes to [st.markdown] is
    named by its CSS class or role and kept with the values interpolated
    into it; a literal of several lines is kept as its lines;
    [print_table df] is [print(df.to_string(index=False))]. *)
Inductive Call : Type :=
| print (text : Text)
| print_table (df : DataFrame)
| st_markdown (markup : string) (values : Text)
| st_subheader (text : string)
| st_info (text : Text)
| st_error (text : Text)
| st_warning (text : string)
| st_plotly_chart (figure : string)
| st_sidebar_header (text : string)
| st_sidebar_subheader (text : string)
| st_sidebar_info (text : Text).

(** An output call with the source line it is made from. *)
Definition Event := (nat * Call)%type.

Definition nl : string := String (ascii_of_nat 10) EmptyString.

Fixpoint repeat_string (s : string) (n : nat) : string :=
  match n with
  | O => ""
  | S n' => s ++ repeat_string s n'
  end.

(** Lines 46-53: the frame [generate_sample_data] builds. *)
Definition sample_data : DataFrame :=
  [ mkRow "Luanda" 450000 520000 10312500000 45 (Q2Qc (42 # 10));
    mkRow "Benguela" 120000 135000 2640000000 18 (Q2Qc (45 # 10));
    mkRow "Huíla" 85000 92000 1732500000 12 (Q2Qc (47 # 10));
    mkRow "Namibe" 65000 78000 1485000000 8 (Q2Qc (43 # 10));
    mkRow "Kwanza Sul" 45000 52000 990000000 6 (Q2Qc (41 # 10)) ].

(** Lines 40-56, with the frame it builds as a parameter. *)
Definition generate_sample_data (env : Env) (df : DataFrame) : option DataFrame :=
  if PANDAS_AVAILABLE env then Some df else None.

(** Everything installed, no library call raising. *)
Definition env_all : Env := mkEnv true true true None None.

Local Open Scope run_scope.

Definition say (line : nat) (c : Call) : Run Event unit := emit (line, c).

(** Lines 32-38. *)
Definition show_dependencies_status (env : Env) : Run Event unit :=
  let mark (b : bool) := if b then "✓ Disponível" else "✗ Não disponível" in
  say 34 (print [Lit "=== STATUS DAS DEPENDÊNCIAS ==="]) ;;;
  say 35 (print [Lit "Streamlit: "; Fmt (VStr (mark (STREAMLIT_AVAILABLE env))) ""]) ;;;
  say 36 (print [Lit "Pandas: "; Fmt (VStr (mark (PANDAS_AVAILABLE env))) ""]) ;;;
  say 37 (print [Lit "Plotly: "; Fmt (VStr (mark (PLOTLY_AVAILABLE env))) ""]) ;;;
  say 38 (print [Lit (repeat_string "=" 35)]).

(** Lines 65-76: the part of the console version that reads the frame. *)
Definition console_statistics (df : DataFrame) : Run Event unit :=
  say 66 (print [Lit (nl ++ "📊 DADOS DE TURISMO - PROVÍNCIAS PRINCIPAIS")]) ;;;
  say 67 (print [Lit (repeat_string "=" 50)]) ;;;
  say 70 (print_table df) ;;;
  say 72 (print [Lit (nl ++ "📈 ESTATÍSTICAS RESUMO:")]) ;;;
  say 73 (print [Lit "Total de Visitantes 2024: ";
                 Fmt (VInt (sum (map Visitantes_2024 df))) ","]) ;;;
  say 74 (print [Lit "Receita Total: ";
                 Fmt (VInt (sum (map Receita_AOA df))) ",.0f"; Lit " AOA"]) ;;;
  say 75 (print [Lit "Média de Satisfação: ";
                 Fmt (VFloat (mean_float (map Satisfacao df))) ".1f"; Lit "/5.0"]) ;;;
  i <- lift (idxmax Z.gtb (enumerate (map Visitantes_2024 df))) ;;
  p <- lift (loc df i Provincia) ;;
  say 76 (print [Lit "Província com Maior Crescimento: "; Fmt (VStr p) ""]).

(** Lines 58-86. *)
Definition run_console_version (env : Env) (df : DataFrame) : Run Event unit :=
  say 60 (print [Lit (nl ++ "🌍 NOMADIX - Dashboard Turístico de Angola")]) ;;;
  say 61 (print [Lit (repeat_string "=" 50)]) ;;;
  show_dependencies_status env ;;;
  match generate_sample_data env df with
  | Some df => console_statistics df
  | None => ret tt
  end ;;;
  say 78 (print [Lit (nl ++ "🎯 INSIGHTS PRINCIPAIS:")]) ;;;
  say 79 (print [Lit "• Luanda mantém liderança no turismo nacional"]) ;;;
  say 80 (print [Lit "• Crescimento médio de 15% no número de visitantes"]) ;;;
  say 81 (print [Lit "• Huíla apresenta maior índice de satisfação"]) ;;;
  say 82 (print [Lit "• Potencial de desenvolvimento no interior"]) ;;;
  say 84 (print [Lit (nl ++ "🔄 Para executar a versão web completa:")]) ;;;
  say 85 (print [Lit "1. Instale: pip install streamlit pandas plotly"]) ;;;
  say 86 (print [Lit "2. Execute: streamlit run src/app.py"]).

(** Lines 160-163. *)
Definition crescimento (df : DataFrame) : float :=
  fmul (fdiv (of_int (sum (map Visitantes_2024 df) - sum (map Visitantes_2023 df)))
             (of_int (sum (map Visitantes_2023 df))))
       (of_int 100).

(** Lines 165-200: the four metric cards. *)
Definition metric_cards (df : DataFrame) : Run Event unit :=
  let total_visitantes := sum (map Visitantes_2024 df) in
  let receita_total := sum (map Receita_AOA df) in
  let satisfacao_media := mean_float (map Satisfacao df) in
  let receita_bilhoes := fdiv (of_int receita_total) (of_int 1000000000) in
  say 166 (st_markdown "metric-card-visitors"
             [Fmt (VInt total_visitantes) ","; Fmt (VFloat (crescimento df)) ".1f"]) ;;;
  say 176 (st_markdown "metric-card-revenue" [Fmt (VFloat receita_bilhoes) ".1f"]) ;;;
  say 185 (st_markdown "metric-card-satisfaction" [Fmt (VFloat satisfacao_media) ".1f"]) ;;;
  say 194 (st_markdown "metric-card-growth" [Fmt (VFloat (crescimento df)) ".1f"]) ;;;
  say 203 (st_markdown "br" []).

(** Lines 206-229: the charts, inside their [try]. *)
Definition charts (env : Env) : Run Event unit :=
  if PLOTLY_AVAILABLE env then
    say 208 (st_subheader "📊 Análise por Província") ;;;
    match chart_error env with
    | Some e =>
        say 228 (st_error [Lit "Erro ao carregar gráficos: "; Fmt (VStr e) ""]) ;;;
        say 229 (st_info
          [Lit "Os gráficos serão exibidos assim que as dependências forem resolvidas."])
    | None =>
        say 217 (st_plotly_chart "Visitantes por Província (2024)") ;;;
        say 224 (st_plotly_chart "Distribuição de Receita (AOA)")
    end
  else
    say 226 (st_warning "📊 Plotly não disponível. Instale com: pip install plotly").

(** Lines 249-263: one markup block per row, with alternating background. *)
Fixpoint table_rows (i : nat) (rows : DataFrame) : Run Event unit :=
  match rows with
  | [] => ret tt
  | row :: rows' =>
      let bg_color := if Nat.even i then "#f9f9f9" else "#ffffff" in
      say 252 (st_markdown "table-row"
        [Fmt (VStr bg_color) ""; Fmt (VStr (Provincia row)) "";
         Fmt (VInt (Visitantes_2023 row)) ","; Fmt (VInt (Visitantes_2024 row)) ",";
         Fmt (VInt (Receita_AOA row)) ",.0f"; Fmt (VInt (Hoteis row)) "";
         Fmt (VFloat (Fin (Satisfacao row))) ""]) ;;;
      table_rows (S i) rows'
  end.

(** Lines 301-307. *)
Definition insights : list string :=
  [ "🏆 Luanda mantém liderança absoluta no setor turístico nacional";
    "📈 Crescimento consistente de 15% no número de visitantes";
    "⭐ Huíla apresenta o maior índice de satisfação dos turistas";
    "🌟 Grande potencial de desenvolvimento no turismo interior";
    "💰 Oportunidades de investimento em infraestrutura hoteleira" ].

(** Lines 309-310. *)
Fixpoint show_insights (l : list string) : Run Event unit :=
  match l with
  | [] => ret tt
  | insight :: l' => say 310 (st_info [Lit insight]) ;;; show_insights l'
  end.

(** Lines 88-310, with Streamlit imported, which is when the script calls
    the function (line 315): without it the name [st] is unbound, and the
    call of line 91 and the handler of line 99 raise [NameError]. *)
Definition run_streamlit_version (env : Env) (df : DataFrame) : Run Event unit :=
  match set_page_config_error env with
  | Some e => say 99 (st_error [Lit "Erro na configuração: "; Fmt (VStr e) ""])
  | None =>
      say 103 (st_markdown "style" []) ;;;
      say 146 (st_markdown "h1" [Lit "🌍 NOMADIX"]) ;;;
      say 147 (st_markdown "h3" [Lit "Dashboard de Insights Turísticos - Angola"]) ;;;
      say 150 (st_sidebar_header "🎛️ Configurações") ;;;
      say 151 (st_sidebar_info
        [Lit "Sistema de análise turística para planejamento estratégico"]) ;;;
      match generate_sample_data env df with
      | Some df =>
          metric_cards df ;;;
          charts env ;;;
          say 232 (st_subheader "📋 Dados Detalhados") ;;;
          say 235 (st_markdown "table-header" []) ;;;
          table_rows 0 df ;;;
          say 266 (st_markdown "table-end" [])
      | None =>
          say 271 (st_error
            [Lit "📊 Pandas não está disponível. Instale com: pip install pandas"]) ;;;
          say 273 (st_subheader "📋 Dados Básicos (Exemplo)") ;;;
          say 274 (st_info [Lit "**Províncias Principais:**";
            Lit "- 🏆 Luanda: 520,000 visitantes | 10.3B AOA";
            Lit "- 🌊 Benguela: 135,000 visitantes | 2.6B AOA";
            Lit "- 🏔️ Huíla: 92,000 visitantes | 1.7B AOA";
            Lit "- 🏖️ Namibe: 78,000 visitantes | 1.5B AOA";
            Lit "- 🌿 Kwanza Sul: 52,000 visitantes | 990M AOA"])
      end ;;;
      let flag (b : bool) := if b then "✅" else "❌" in
      say 284 (st_sidebar_subheader "🔧 Status do Sistema") ;;;
      say 296 (st_sidebar_info
        [Lit "**Dependências:**";
         Lit "- Streamlit: "; Fmt (VStr (flag (STREAMLIT_AVAILABLE env))) "";
         Lit "- Pandas: "; Fmt (VStr (flag (PANDAS_AVAILABLE env))) "";
         Lit "- Plotly: "; Fmt (VStr (flag (PLOTLY_AVAILABLE env))) "";
         Lit "**Para instalação completa:**"; Lit "pip install pandas plotly"]) ;;;
      say 299 (st_subheader "🎯 Insights Principais") ;;;
      show_insights insights
  end.

(** Lines 312-320. *)
Definition script (env : Env) (df : DataFrame) : Run Event unit :=
  show_dependencies_status env ;;;
  if STREAMLIT_AVAILABLE env then
    say 316 (print [Lit (nl ++ "🚀 Iniciando versão Streamlit...")]) ;;;
    run_streamlit_version env df
  else
    say 319 (print [Lit (nl ++ "🖥️ Streamlit não disponível, executando versão console...")]) ;;;
    run_console_version env df.

Local Close Scope run_scope.

(** The insight texts a run showed: what [st.info] received at line 310,
    and what [print] received at lines 79 to 82. *)
Definition streamlit_insights (trace : list Event) : list Text :=
  flat_map (fun ev =>
    match ev with
    | (line, st_info text) => if Nat.eqb line 310 then [text] else []
    | _ => []
    end) trace.

Definition console_insights (trace : list Event) : list Text :=
  flat_map (fun ev =>
    match ev with
    | (line, print text) =>
        if Nat.leb 79 line && Nat.leb line 82 then [text] else []
    | _ => []
    end) trace.

Definition console_bullets : list Text :=
  [ [Lit "• Luanda mantém liderança no turismo nacional"];
    [Lit "• Crescimento médio de 15% no número de visitantes"];
    [Lit "• Huíla apresenta maior índice de satisfação"];
    [Lit "• Potencial de desenvolvimento no interior"] ].

(** The calls that write to the console, as against the Streamlit calls. *)
Definition is_print (c : Call) : bool :=
  match c with
  | print _ | print_table _ => true
  | _ => false
  end.

(** What line 76 prints for the province [p]. *)
Definition maior_crescimento_line (p : string) : Event :=
  (76%nat, print [Lit "Província com Maior Crescimento: "; Fmt (VStr p) ""]).

End Simple.

(** ** The specification's formulas, for comparison with the code *)

(** "The first 3 periods" and "the last 3 periods" of a series. *)
Definition spec_first3 (s : list Z) : list Z := firstn 3 s.
Definition spec_last3 (s : list Z) : list Z := rev (firstn 3 (rev s)).

(** The arithmetic mean, as a rational. *)
Definition spec_mean (l : list Z) : Qc :=
  let total := fold_right Z.add 0 l in
  let count := Z.of_nat (List.length l) in
  (Qc_of_Z total / Qc_of_Z count)%Qc.

(** [(mean(last 3) / mean(first 3) - 1) * 100] *)
Definition spec_delta_percent (s : list Z) : Qc :=
  ((spec_mean (spec_last3 s) / spec_mean (spec_first3 s) - Qc_of_Z 1) * Qc_of_Z 100)%Qc.

(** "The first 3 rows" and "the last 3 rows" of a frame. *)
Definition first_rows (df : DataFrame) : DataFrame := firstn 3 df.
Definition last_rows (df : DataFrame) : DataFrame := rev (firstn 3 (rev df)).

(** [(mean(last 3 rows) / mean(first 3 rows) - 1) * 100] over the visitors
    of the rows, in float64. *)
Definition spec_row_delta (df : DataFrame) : float :=
  fmul (fsub (fdiv (mean (map visitantes (last_rows df)))
                   (mean (map visitantes (first_rows df))))
             (of_int 1))
       (of_int 100).

(** "Records whose date is at least the maximum date of the full store
    minus the window", then the province selection. *)
Definition spec_period_filter (w : Z) (store : DataFrame) : DataFrame :=
  filter (fun r => ge_timestamp (data r) (minus_days (series_max (map data store)) w)) store.

Definition spec_pipeline (w : Z) (provinces : list string) (store : DataFrame) : DataFrame :=
  filter (fun r => isin (provincia r) provinces) (spec_period_filter w store).

(** ** Predicates used in the statements *)

(** Keys in strictly ascending order. *)
Definition key_lt {K X : Type} (cmp : K -> K -> comparison) (x y : K * X) : Prop :=
  cmp (fst x) (fst y) = Lt.

Definition ascending {K X : Type} (cmp : K -> K -> comparison) (g : list (K * X)) : Prop :=
  StronglySorted (key_lt cmp) g.

(** Every group is non-empty and holds values of rows with the group's key. *)
Definition groups_of {K V : Type} (rows : list (K * V)) (g : list (K * list V)) : Prop :=
  forall k vs, In (k, vs) g -> vs <> [] /\ forall v, In v vs -> In (k, v) rows.

(** [r] is the first maximum of [s]: everything before it is strictly
    smaller, nothing after it is greater. *)
Definition first_max {L V : Type} (gtb : V -> V -> bool) (r : L * V)
    (s : list (L * V)) : Prop :=
  exists l1 l2,
    s = (l1 ++ r :: l2)%list
    /\ (forall x, In x l1 -> gtb (snd r) (snd x) = true)
    /\ (forall x, In x l2 -> gtb (snd x) (snd r) = false).

Definition not_nan (x : float) : Prop := is_nan x = false.

Definition month_and_mean (r : SazonalRow) : Z * float := (mes r, visitantes_media r).

(** A run that finishes and whose trace shows the texts [l] under a reading
    [pick] of traces. *)
Definition shows {E T : Type} (pick : list E -> list T) (m : Run E unit)
    (l : list T) : Prop :=
  outcome m = Ok tt /\ pick (emitted m) = l.

(** ** Sample frames *)

(** Two provinces, the later row in province A. *)
Definition row_A : Row := mkRow 1000 "A" 10 (Qc_of_Z 1) (Qc_of_Z 3) (Qc_of_Z 4).
Definition row_B : Row := mkRow 100 "B" 20 (Qc_of_Z 1) (Qc_of_Z 3) (Qc_of_Z 4).

(** Three rows without visitors on 2020-01-31, one row with five visitors
    on 2020-02-29. *)
Definition zero_head_frame : DataFrame :=
  [ mkRow 18292 "Luanda" 0 (Qc_of_Z 1) (Qc_of_Z 3) (Qc_of_Z 4);
    mkRow 18292 "Benguela" 0 (Qc_of_Z 1) (Qc_of_Z 3) (Qc_of_Z 4);
    mkRow 18292 "Huíla" 0 (Qc_of_Z 1) (Qc_of_Z 3) (Qc_of_Z 4);
    mkRow 18321 "Luanda" 5 (Qc_of_Z 1) (Qc_of_Z 3) (Qc_of_Z 4) ].

(** Three provinces with the same total, three months with the same mean. *)
Definition tie_frame : DataFrame :=
  [ mkRow 18321 "Luanda" 7 (Qc_of_Z 1) (Qc_of_Z 3) (Qc_of_Z 4);
    mkRow 18292 "Benguela" 7 (Qc_of_Z 1) (Qc_of_Z 3) (Qc_of_Z 4);
    mkRow 18352 "Huíla" 7 (Qc_of_Z 1) (Qc_of_Z 3) (Qc_of_Z 4) ].

(** Two provinces on each of four month ends, 2020-01-31 to 2020-04-30, in
    the row order of the loader: date by date, province by province.  The
    totals per date are 101, 112, 123 and 134. *)
Definition two_province_frame : DataFrame :=
  [ mkRow 18292 "Luanda" 100 (Qc_of_Z 1) (Qc_of_Z 3) (Qc_of_Z 4);
    mkRow 18292 "Benguela" 1 (Qc_of_Z 1) (Qc_of_Z 3) (Qc_of_Z 4);
    mkRow 18321 "Luanda" 110 (Qc_of_Z 1) (Qc_of_Z 3) (Qc_of_Z 4);
    mkRow 18321 "Benguela" 2 (Qc_of_Z 1) (Qc_of_Z 3) (Qc_of_Z 4);
    mkRow 18352 "Luanda" 120 (Qc_of_Z 1) (Qc_of_Z 3) (Qc_of_Z 4);
    mkRow 18352 "Benguela" 3 (Qc_of_Z 1) (Qc_of_Z 3) (Qc_of_Z 4);
    mkRow 18382 "Luanda" 130 (Qc_of_Z 1) (Qc_of_Z 3) (Qc_of_Z 4);
    mkRow 18382 "Benguela" 4 (Qc_of_Z 1) (Qc_of_Z 3) (Qc_of_Z 4) ].

(** ** The chart frames of [main] (app.py, lines 165, 199, 218-219, 244) *)

(** Line 165. *)
Definition receita_total (df_filtrado : DataFrame) : Qc :=
  qsum (map receita df_filtrado).

(** Line 199: [groupby('data')['visitantes'].sum()]. *)
Definition df_mensal (df_filtrado : DataFrame) : list (Timestamp * Z) :=
  groupby_sum Z.compare (map (fun r => (data r, visitantes r)) df_filtrado).

(** Line 244: [groupby('provincia')['receita'].sum()]. *)
Definition df_receita (df_filtrado : DataFrame) : list (string * Qc) :=
  map (fun g => (fst g, qsum (snd g)))
      (groupby string_compare (map (fun r => (provincia r, receita r)) df_filtrado)).

(** Line 219: [sort_values('visitantes', ascending=False)] on the frame of
    line 218.  pandas sorts with [kind='quicksort'], which is not stable, so
    the order among equal totals is left open: a result is a rearrangement
    of the frame in which the totals descend. *)
Definition sort_values_desc (frame sorted : list (string * Z)) : Prop :=
  Permutation frame sorted
  /\ StronglySorted (fun x y => snd y <= snd x) sorted.

(** ** Rows by key *)

Definition is_eq (c : comparison) : bool :=
  match c with Eq => true | _ => false end.

(** The values of the rows whose key is [k], in row order. *)
Definition values_with_key {K V : Type} (cmp : K -> K -> comparison) (k : K)
    (rows : list (K * V)) : list V :=
  map snd (filter (fun kv => is_eq (cmp (fst kv) k)) rows).

(** The ascending list of distinct keys, built key by key. *)
Fixpoint insert_key {K : Type} (cmp : K -> K -> comparison) (k : K)
    (keys : list K) : list K :=
  match keys with
  | [] => [k]
  | k' :: keys' =>
      match cmp k k' with
      | Lt => k :: keys
      | Eq => keys
      | Gt => k' :: insert_key cmp k keys'
      end
  end.

Definition distinct_keys {K : Type} (cmp : K -> K -> comparison) (keys : list K) : list K :=
  fold_left (fun acc k => insert_key cmp k acc) keys [].

(** The rows of a province, of a calendar month, of a date. *)
Definition rows_of_province (p : string) (df : DataFrame) : DataFrame :=
  filter (fun r => (provincia r =? p)%string) df.

Definition rows_of_month (m : Z) (df : DataFrame) : DataFrame :=
  filter (fun r => month_of (data r) =? m) df.

Definition rows_of_date (d : Timestamp) (df : DataFrame) : DataFrame :=
  filter (fun r => data r =? d) df.

(** The groups built from the rows [done] hold, key by key, the values of
    the rows with that key, and every key of a row has its group. *)
Definition exact_groups {K V : Type} (cmp : K -> K -> comparison)
    (done : list (K * V)) (g : list (K * list V)) : Prop :=
  ascending cmp g
  /\ (forall k vs, In (k, vs) g -> vs = values_with_key cmp k done)
  /\ (forall k v, In (k, v) done -> exists vs, In (k, vs) g).

(** Every event of a run satisfies [P]. *)
Definition every {E A : Type} (P : E -> Prop) (m : Run E A) : Prop :=
  Forall P (emitted m).

(** * Properties *)

(** ** Lists and reductions *)

Lemma filter_all {A : Type} (f : A -> bool) (l : list A) :
  (forall x, In x l -> f x = true) -> filter f l = l.
Proof.
  induction l as [|a l IH]; intros H; simpl; [reflexivity|].
  rewrite (H a (or_introl eq_refl)). f_equal. apply IH.
  intros x Hx. apply H. now right.
Qed.

Lemma fold_max_ge (s : list Z) (d : Z) :
  d <= fold_left Z.max s d /\ forall x, In x s -> x <= fold_left Z.max s d.
Proof.
  revert d. induction s as [|a s IH]; intros d; simpl.
  - split; [lia | intros x []].
  - destruct (IH (Z.max d a)) as [H1 H2]. split; [lia|].
    intros x [->|Hx]; [lia | now apply H2].
Qed.

Lemma fold_max_in (s : list Z) (d : Z) :
  In (fold_left Z.max s d) (d :: s).
Proof.
  revert d. induction s as [|a s IH]; intros d; simpl; [now left|].
  destruct (IH (Z.max d a)) as [H|H].
  - destruct (Z.max_spec d a) as [[_ E]|[_ E]]; rewrite E in *; auto.
  - right. now right.
Qed.

Lemma fold_min_le (s : list Z) (d : Z) :
  fold_left Z.min s d <= d /\ forall x, In x s -> fold_left Z.min s d <= x.
Proof.
  revert d. induction s as [|a s IH]; intros d; simpl.
  - split; [lia | intros x []].
  - destruct (IH (Z.min d a)) as [H1 H2]. split; [lia|].
    intros x [->|Hx]; [lia | now apply H2].
Qed.

(** [series_max] is the maximum of a non-empty column. *)
Lemma series_max_spec (s : list Z) (m : Z) :
  series_max s = Some m -> In m s /\ forall x, In x s -> x <= m.
Proof.
  destruct s as [|d s]; simpl; [discriminate|].
  intros [= <-]. split; [apply fold_max_in|].
  destruct (fold_max_ge s d) as [H1 H2].
  intros x [->|Hx]; [exact H1 | now apply H2].
Qed.

Lemma series_max_none (s : list Z) : series_max s = None <-> s = [].
Proof. destruct s; simpl; split; congruence. Qed.

Lemma series_min_le (s : list Z) (m : Z) :
  series_min s = Some m -> forall x, In x s -> m <= x.
Proof.
  destruct s as [|d s]; simpl; [discriminate|].
  intros [= <-]. destruct (fold_min_le s d) as [H1 H2].
  intros x [->|Hx]; [exact H1 | now apply H2].
Qed.

Lemma isin_In (p : string) (sel : list string) : isin p sel = true <-> In p sel.
Proof.
  unfold isin. rewrite existsb_exists. split.
  - intros (x & Hx & E). apply String.eqb_eq in E. now subst.
  - intros H. exists p. split; [exact H | apply String.eqb_refl].
Qed.

(** ** The filters *)

(** C1, as stated, fails: with nothing selected the store passes whole. *)
Lemma province_filter_empty_selection_not_empty :
  province_filter [] [row_A; row_B] = [row_A; row_B]
  /\ province_filter [] [row_A; row_B] <> [].
Proof. split; [reflexivity | discriminate]. Qed.

(** C1 (amended): an empty selection skips the province mask, so the store
    passes unchanged and the period filter works on the whole store; a
    non-empty selection keeps exactly the rows of the selected provinces. *)
Theorem province_filter_empty_selection_is_identity :
  forall (store : DataFrame),
    province_filter [] store = store
    /\ (forall periodo, df_filtrado periodo [] store = period_filter periodo store)
    /\ (forall p sel r,
          In r (province_filter (p :: sel) store)
          <-> In r store /\ In (provincia r) (p :: sel)).
Proof.
  intros store. split; [reflexivity|]. split; [reflexivity|].
  intros p sel r. unfold province_filter. rewrite filter_In, isin_In. tauto.
Qed.

(** C9: with the option "Todos os dados" the period filter returns its input
    unchanged, so the filtered frame is the province selection itself. *)
Theorem period_filter_all_is_identity :
  forall (df : DataFrame),
    period_filter "Todos os dados" df = df
    /\ (forall sel, df_filtrado "Todos os dados" sel df = province_filter sel df).
Proof.
  assert (H : forall df, period_filter "Todos os dados" df = df).
  { intros df. unfold period_filter. apply filter_all. intros r Hr.
    change (data_inicio "Todos os dados" df) with (series_min (map data df)).
    destruct (series_min (map data df)) as [m|] eqn:E.
    - simpl. apply Z.leb_le. apply (series_min_le _ _ E). now apply in_map.
    - destruct df; [destruct Hr | discriminate]. }
  intros df. split; [apply H | intros sel; apply H].
Qed.

Lemma data_inicio_window (periodo : string) (w : Z) (df : DataFrame) :
  window periodo = Some w ->
  data_inicio periodo df = minus_days (series_max (map data df)) w.
Proof.
  unfold window, data_inicio.
  destruct (periodo =? "Últimos 6 meses")%string; [now intros [= <-]|].
  destruct (periodo =? "Último ano")%string; [now intros [= <-]|].
  destruct (periodo =? "Últimos 2 anos")%string; [now intros [= <-]|].
  discriminate.
Qed.

Lemma ge_timestamp_max (s : list Z) (w d : Z) :
  ge_timestamp d (minus_days (series_max s) w) = true
  <-> exists hoje, In hoje s /\ (forall x, In x s -> x <= hoje) /\ hoje - w <= d.
Proof.
  destruct (series_max s) as [m|] eqn:E; simpl.
  - destruct (series_max_spec _ _ E) as [Hin Hmax]. rewrite Z.leb_le. split.
    + intros H. now exists m.
    + intros (h & Hh & Hub & Hd).
      assert (h = m) by (apply Z.le_antisymm; [now apply Hmax | now apply Hub]).
      now subst.
  - apply series_max_none in E. subst s. split; [discriminate|].
    now intros (h & [] & _).
Qed.

(** C2, as stated, fails: the script masks the provinces first and takes the
    reference date from what is left.  On a store whose latest row belongs to
    province A, selecting B alone moves the reference date from day 1000 to
    day 100, and B's row, 900 days older than the store's latest date, passes
    the six-month filter. *)
Lemma reference_date_follows_selection :
  df_filtrado "Últimos 6 meses" ["B"] [row_A; row_B] = [row_B]
  /\ spec_pipeline 180 ["B"] [row_A; row_B] = []
  /\ data_inicio "Últimos 6 meses" (province_filter ["A"] [row_A; row_B]) = Some 820
  /\ data_inicio "Últimos 6 meses" (province_filter ["B"] [row_A; row_B]) = Some (-80).
Proof. repeat split; reflexivity. Qed.

(** C2 (amended): for a bounded period option the filtered frame holds
    exactly the rows of the selected provinces whose date is at least the
    maximum date among the selected provinces' rows minus the window (180,
    365 or 730 days): the province mask comes first and the reference date
    is taken after it. *)
Theorem period_filter_reference_is_selection_max :
  forall (periodo : string) (w : Z) (sel : list string) (store : DataFrame),
    window periodo = Some w ->
    (w = 180 \/ w = 365 \/ w = 730)
    /\ df_filtrado periodo sel store = spec_period_filter w (province_filter sel store)
    /\ (forall r,
          In r (df_filtrado periodo sel store)
          <-> In r (province_filter sel store)
              /\ exists hoje,
                   In hoje (map data (province_filter sel store))
                   /\ (forall r', In r' (province_filter sel store) -> data r' <= hoje)
                   /\ hoje - w <= data r).
Proof.
  intros periodo w sel store Hw.
  assert (Hi := data_inicio_window periodo w (province_filter sel store) Hw).
  split; [|split].
  - revert Hw. unfold window.
    destruct (periodo =? "Últimos 6 meses")%string; [intros [= <-]; auto|].
    destruct (periodo =? "Último ano")%string; [intros [= <-]; auto|].
    destruct (periodo =? "Últimos 2 anos")%string; [intros [= <-]; auto|].
    discriminate.
  - unfold df_filtrado, period_filter, spec_period_filter. now rewrite Hi.
  - intros r. unfold df_filtrado, period_filter. rewrite Hi, filter_In, ge_timestamp_max.
    split; intros [Hr (h & Hh & Hub & Hd)]; (split; [exact Hr|]); exists h;
      (split; [exact Hh|]); (split; [|exact Hd]).
    + intros r' Hr'. apply Hub. now apply in_map.
    + intros x Hx. apply in_map_iff in Hx. destruct Hx as (r' & <- & Hr'). now apply Hub.
Qed.

Lemma period_filter_reference_is_selection_max_witness :
  window "Últimos 6 meses" = Some 180
  /\ df_filtrado "Últimos 6 meses" ["B"] [row_A; row_B]
     = spec_period_filter 180 (province_filter ["B"] [row_A; row_B]).
Proof.
  split; [reflexivity|].
  exact (proj1 (proj2 (period_filter_reference_is_selection_max
           "Últimos 6 meses" 180 ["B"] [row_A; row_B] eq_refl))).
Defined.

(** ** Signs of rationals *)

Lemma Qcsign_of_Z (z : Z) : Qcsign (Qc_of_Z z) = (z ?= 0)%Z.
Proof.
  unfold Qcsign, Qccompare, Qc_of_Z, Q2Qc. cbn [this].
  rewrite !Qred_correct. unfold Qcompare. cbn. now rewrite Z.mul_1_r.
Qed.

Lemma Qcsign_div (a : Qc) (n : Z) :
  0 < n -> Qcsign (a / Qc_of_Z n)%Qc = Qcsign a.
Proof.
  intros Hn. unfold Qcsign, Qccompare, Qcdiv, Qcmult, Qcinv, Qc_of_Z, Q2Qc. cbn [this].
  rewrite !Qred_correct. destruct a as [[p q] c]. cbn [this].
  destruct n as [|n|n]; try lia.
  unfold Qcompare, Qmult, Qinv, inject_Z. cbn.
  rewrite !Z.mul_1_r. reflexivity.
Qed.

(** ** Means and the head-tail delta *)

Lemma sum_from (s : list Z) (a : Z) : fold_left Z.add s a = a + fold_right Z.add 0 s.
Proof.
  revert a. induction s as [|x s IH]; intros a; simpl; [lia|]. rewrite IH. lia.
Qed.

Lemma sum_fold_right (s : list Z) : sum s = fold_right Z.add 0 s.
Proof. unfold sum. now rewrite sum_from. Qed.

Lemma length_pos {A : Type} (s : list A) : s <> [] -> 0 < Z.of_nat (List.length s).
Proof. destruct s; [congruence | simpl; lia]. Qed.

(** The mean of a non-empty integer series is the rational mean. *)
Lemma mean_nonempty (s : list Z) : s <> [] -> mean s = Fin (spec_mean s).
Proof.
  intros H. unfold mean, of_int, fdiv, spec_mean.
  rewrite Qcsign_of_Z. apply length_pos in H.
  destruct (Z.compare_spec (Z.of_nat (List.length s)) 0); try lia;
    now rewrite sum_fold_right.
Qed.

Lemma spec_mean_sign (s : list Z) :
  s <> [] -> Qcsign (spec_mean s) = (sum s ?= 0).
Proof.
  intros H. unfold spec_mean. rewrite Qcsign_div by now apply length_pos.
  now rewrite Qcsign_of_Z, sum_fold_right.
Qed.

Lemma head_nonempty {A : Type} (n : nat) (s : list A) :
  s <> [] -> head (S n) s <> [].
Proof. destruct s; [congruence | discriminate]. Qed.

Lemma tail_nonempty {A : Type} (n : nat) (s : list A) :
  s <> [] -> tail (S n) s <> [].
Proof.
  intros H E. apply (f_equal (@List.length A)) in E. unfold tail in E.
  rewrite length_skipn in E. destruct s; [congruence | cbn [List.length] in E; lia].
Qed.

(** The windows of the code are the first and the last three periods. *)
Lemma head_is_first3 (s : list Z) : head 3 s = spec_first3 s.
Proof. reflexivity. Qed.

Lemma tail_is_last3 (s : list Z) : tail 3 s = spec_last3 s.
Proof.
  unfold tail, spec_last3. now rewrite firstn_rev, rev_involutive.
Qed.

Lemma short_series_windows {A : Type} (s : list A) :
  (List.length s <= 3)%nat -> head 3 s = s /\ tail 3 s = s.
Proof.
  intros H. unfold head, tail. split.
  - now apply firstn_all2.
  - replace (List.length s - 3)%nat with 0%nat by lia. reflexivity.
Qed.

(** Every value [delta_percent] can take. *)
Lemma delta_percent_cases (s : list Z) :
  delta_percent s =
    match s with
    | [] => NaN
    | _ :: _ =>
        match sum (head 3 s) ?= 0 with
        | Eq => match sum (tail 3 s) ?= 0 with
                | Eq => NaN
                | Lt => NInf
                | Gt => PInf
                end
        | _ => Fin (spec_delta_percent s)
        end
    end.
Proof.
  destruct s as [|a s']; [reflexivity|].
  set (s := a :: s'). assert (Hs : s <> []) by discriminate.
  unfold delta_percent.
  rewrite (mean_nonempty _ (head_nonempty 2 s Hs)).
  rewrite (mean_nonempty _ (tail_nonempty 2 s Hs)).
  assert (Hh := spec_mean_sign _ (head_nonempty 2 s Hs)).
  assert (Ht := spec_mean_sign _ (tail_nonempty 2 s Hs)).
  unfold spec_delta_percent. rewrite <- tail_is_last3.
  change (spec_first3 s) with (head 3 s).
  unfold fdiv. rewrite Hh.
  destruct (sum (head 3 s) ?= 0); try reflexivity.
  rewrite Ht. destruct (sum (tail 3 s) ?= 0); reflexivity.
Qed.

Lemma delta_percent_finite (s : list Z) :
  is_finite (delta_percent s) = false <-> s = [] \/ sum (head 3 s) = 0.
Proof.
  rewrite delta_percent_cases. destruct s as [|a s'].
  - simpl. tauto.
  - set (h := sum (head 3 (a :: s'))). set (t := sum (tail 3 (a :: s'))).
    destruct (Z.compare_spec h 0) as [E|E|E].
    + split; [now right|]. intros _. now destruct (t ?= 0).
    + cbn [is_finite]. split; [discriminate | intros [H|H]; [discriminate | lia]].
    + cbn [is_finite]. split; [discriminate | intros [H|H]; [discriminate | lia]].
Qed.

(** ** Calendar months *)

Lemma month_of_range (d : Timestamp) : 1 <= month_of d <= 12.
Proof.
  unfold month_of.
  set (doe := (d + 719468) mod 146097).
  assert (Hdoe : 0 <= doe < 146097) by (apply Z.mod_pos_bound; lia).
  set (yoe := (doe - doe / 1460 + doe / 36524 - doe / 146096) / 365).
  set (doy := doe - (365 * yoe + yoe / 4 - yoe / 100)).
  assert (Hdoy : 0 <= doy <= 365).
  { subst doy yoe. clearbody doe. Z.div_mod_to_equations. lia. }
  clearbody doy. clear doe Hdoe yoe.
  destruct ((5 * doy + 2) / 153 <? 10) eqn:E.
  - apply Z.ltb_lt in E. Z.div_mod_to_equations. lia.
  - apply Z.ltb_ge in E. Z.div_mod_to_equations. lia.
Qed.

(** ** groupby *)

Section GroupByFacts.
Context {K V : Type} (cmp : K -> K -> comparison).
Hypothesis cmp_eq : forall a b, cmp a b = Eq -> a = b.
Hypothesis cmp_gt : forall a b, cmp a b = Gt -> cmp b a = Lt.
Hypothesis cmp_trans : forall a b c, cmp a b = Lt -> cmp b c = Lt -> cmp a c = Lt.

Lemma add_to_group_In (k : K) (v : V) (g : list (K * list V)) (k' : K) (vs' : list V) :
  In (k', vs') (add_to_group cmp k v g) ->
  In (k', vs') g
  \/ (k' = k /\ vs' = [v])
  \/ (k' = k /\ exists vs0, In (k, vs0) g /\ vs' = (vs0 ++ [v])%list).
Proof.
  induction g as [|[k0 vs0] g IH]; simpl.
  - intros [[= <- <-]|[]]. right. now left.
  - destruct (cmp k k0) eqn:E; simpl.
    + apply cmp_eq in E. subst k0. intros [[= <- <-]|H].
      * right. right. split; [reflexivity|]. exists vs0. split; [now left | reflexivity].
      * left. now right.
    + intros [[= <- <-]|H]; [right; now left | now left].
    + intros [H|H]; [left; now left|].
      destruct (IH H) as [H'|[H'|(-> & vs1 & H1 & ->)]]; auto.
      right. right. split; [reflexivity|]. exists vs1. split; [now right | reflexivity].
Qed.

Lemma add_to_group_keys (k : K) (v : V) (g : list (K * list V)) (x : K * list V) :
  In x (add_to_group cmp k v g) -> fst x = k \/ exists y, In y g /\ fst y = fst x.
Proof.
  destruct x as [k' vs']. intros H.
  destruct (add_to_group_In _ _ _ _ _ H) as [H'|[[-> _]|[-> _]]]; auto.
  right. now exists (k', vs').
Qed.

Lemma add_to_group_ascending (k : K) (v : V) (g : list (K * list V)) :
  ascending cmp g -> ascending cmp (add_to_group cmp k v g).
Proof.
  unfold ascending. induction 1 as [|[k0 vs0] g Hs IH Hall]; simpl.
  - repeat constructor.
  - destruct (cmp k k0) eqn:E.
    + apply cmp_eq in E. subst k0. constructor; [exact Hs | exact Hall].
    + constructor; [now constructor|]. constructor; [exact E|].
      rewrite Forall_forall in *. intros y Hy. unfold key_lt in *. simpl.
      apply (cmp_trans _ k0); [exact E | exact (Hall y Hy)].
    + constructor; [exact IH|]. rewrite Forall_forall in *. intros y Hy.
      destruct (add_to_group_keys _ _ _ _ Hy) as [Hk|(z & Hz & Hk)]; unfold key_lt; simpl.
      * rewrite Hk. now apply cmp_gt.
      * rewrite <- Hk. exact (Hall z Hz).
Qed.

Lemma fold_groups_ascending (rows : list (K * V)) (g : list (K * list V)) :
  ascending cmp g ->
  ascending cmp (fold_left (fun g kv => add_to_group cmp (fst kv) (snd kv) g) rows g).
Proof.
  revert g. induction rows as [|[k v] rows IH]; intros g Hg; simpl; [exact Hg|].
  apply IH. now apply add_to_group_ascending.
Qed.

Lemma fold_groups_of (rows done : list (K * V)) (g : list (K * list V)) :
  groups_of done g ->
  groups_of (done ++ rows)
    (fold_left (fun g kv => add_to_group cmp (fst kv) (snd kv) g) rows g).
Proof.
  revert done g. induction rows as [|[k v] rows IH]; intros done g Hg; simpl.
  - now rewrite app_nil_r.
  - replace (done ++ (k, v) :: rows)%list with ((done ++ [(k, v)]) ++ rows)%list
      by now rewrite <- app_assoc.
    apply IH. intros k' vs' Hin.
    destruct (add_to_group_In _ _ _ _ _ Hin) as [H|[[-> ->]|(-> & vs0 & H0 & ->)]].
    + destruct (Hg _ _ H) as [Hne Hv]. split; [exact Hne|].
      intros x Hx. apply in_or_app. left. now apply Hv.
    + split; [discriminate|]. intros x [<-|[]]. apply in_or_app. right. now left.
    + destruct (Hg _ _ H0) as [Hne Hv]. split; [now destruct vs0|].
      intros x Hx. apply in_app_or in Hx. apply in_or_app.
      destruct Hx as [Hx|[<-|[]]]; [left; now apply Hv | right; now left].
Qed.

Lemma add_to_group_nonempty (k : K) (v : V) (g : list (K * list V)) :
  add_to_group cmp k v g <> [].
Proof. destruct g as [|[k0 vs0] g]; simpl; [|destruct (cmp k k0)]; discriminate. Qed.

Lemma fold_groups_nonempty (rows : list (K * V)) (g : list (K * list V)) :
  g <> [] ->
  fold_left (fun g kv => add_to_group cmp (fst kv) (snd kv) g) rows g <> [].
Proof.
  revert g. induction rows as [|[k v] rows IH]; intros g Hg; simpl; [exact Hg|].
  apply IH. apply add_to_group_nonempty.
Qed.

Lemma groupby_ascending (rows : list (K * V)) : ascending cmp (groupby cmp rows).
Proof. apply fold_groups_ascending. constructor. Qed.

Lemma groupby_groups (rows : list (K * V)) : groups_of rows (groupby cmp rows).
Proof. apply (fold_groups_of rows []). intros k vs []. Qed.

Lemma groupby_nonempty (rows : list (K * V)) : rows <> [] -> groupby cmp rows <> [].
Proof.
  destruct rows as [|[k v] rows]; [congruence|]. intros _.
  unfold groupby. cbn [fold_left]. apply fold_groups_nonempty. apply add_to_group_nonempty.
Qed.

(** Applying an aggregate to each group keeps the keys in order. *)
Lemma ascending_map {X Y : Type} (f : list X -> Y) (g : list (K * list X)) :
  ascending cmp g -> ascending cmp (map (fun x => (fst x, f (snd x))) g).
Proof.
  unfold ascending. induction 1 as [|x g Hs IH Hall]; simpl; constructor; [exact IH|].
  rewrite Forall_forall in *. intros y Hy. apply in_map_iff in Hy.
  destruct Hy as (z & <- & Hz). exact (Hall z Hz).
Qed.

(** In an ascending list cut at an entry, the keys after the cut are greater. *)
Lemma ascending_after {X : Type} (l1 l2 : list (K * X)) (x y : K * X) :
  ascending cmp (l1 ++ x :: l2) -> In y l2 -> cmp (fst x) (fst y) = Lt.
Proof.
  unfold ascending. induction l1 as [|a l1 IH]; simpl; intros H Hy.
  - apply StronglySorted_inv in H. destruct H as [_ H].
    rewrite Forall_forall in H. exact (H y Hy).
  - apply StronglySorted_inv in H. destruct H as [H _]. now apply IH.
Qed.

End GroupByFacts.

(** ** idxmax *)

Section IdxMaxFacts.
Context {L V : Type} (gtb : V -> V -> bool) (D : V -> Prop).
Hypothesis gtb_asym : forall x y, D x -> D y -> gtb x y = true -> gtb y x = false.
Hypothesis gtb_cotrans :
  forall x y z, D x -> D y -> D z -> gtb x z = true -> gtb x y = false -> gtb y z = true.

Lemma gtb_irrefl (x : V) : D x -> gtb x x = false.
Proof.
  intros Hx. destruct (gtb x x) eqn:E; [|reflexivity].
  now rewrite (gtb_asym x x Hx Hx E) in E.
Qed.

Lemma first_max_head (r b : L * V) (rest : list (L * V)) :
  D (snd r) -> D (snd b) -> first_max gtb r (b :: rest) -> gtb (snd b) (snd r) = false.
Proof.
  intros Hr Hb (l1 & l2 & E & H1 & _). destruct l1 as [|a l1]; simpl in E.
  - injection E as -> _. now apply gtb_irrefl.
  - injection E as -> _. apply gtb_asym; auto. apply H1. now left.
Qed.

Lemma argmax_from_first_max (rest : list (L * V)) (best : L * V) :
  Forall (fun x => D (snd x)) (best :: rest) ->
  first_max gtb (argmax_from gtb best rest) (best :: rest).
Proof.
  revert best. induction rest as [|x rest IH]; intros best HD; simpl.
  - exists [], []. repeat split; intros y [].
  - assert (Hb : D (snd best)) by now inversion HD.
    assert (Hrest : Forall (fun x => D (snd x)) (x :: rest)) by now inversion HD.
    assert (Hx : D (snd x)) by now inversion Hrest.
    assert (Htail : Forall (fun x => D (snd x)) rest) by now inversion Hrest.
    destruct (gtb (snd x) (snd best)) eqn:E.
    + specialize (IH x Hrest). set (r := argmax_from gtb x rest) in *.
      assert (Hr : D (snd r)).
      { destruct IH as (l1 & l2 & Eq & _). rewrite Forall_forall in Hrest.
        apply Hrest. rewrite Eq. apply in_or_app. right. now left. }
      assert (Hxr := first_max_head r x rest Hr Hx IH).
      destruct IH as (l1 & l2 & Eq & H1 & H2).
      exists (best :: l1), l2. split; [now rewrite Eq|]. split; [|exact H2].
      intros y [<-|Hy]; [|now apply H1].
      now apply (gtb_cotrans (snd x) (snd r) (snd best)).
    + assert (HD' : Forall (fun x => D (snd x)) (best :: rest)) by now constructor.
      specialize (IH best HD'). set (r := argmax_from gtb best rest) in *.
      assert (Hr : D (snd r)).
      { destruct IH as (l1 & l2 & Eq & _). rewrite Forall_forall in HD'.
        apply HD'. rewrite Eq. apply in_or_app. right. now left. }
      destruct IH as (l1 & l2 & Eq & H1 & H2). destruct l1 as [|a l1]; simpl in Eq.
      * injection Eq as Eb El. exists [], (x :: l2). split; [simpl; congruence|].
        split; [intros y []|]. intros y [<-|Hy]; [now rewrite <- Eb | now apply H2].
      * injection Eq as Ea El. subst a. exists (best :: x :: l1), l2.
        split; [simpl; now rewrite El|]. split; [|exact H2].
        intros y [<-|[<-|Hy]].
        -- apply H1. now left.
        -- destruct (gtb (snd r) (snd x)) eqn:G; [reflexivity|].
           assert (Hbest : gtb (snd r) (snd best) = true) by (apply H1; now left).
           rewrite (gtb_cotrans (snd r) (snd x) (snd best) Hr Hx Hb Hbest G) in E.
           discriminate.
        -- apply H1. now right.
Qed.

Lemma idxmax_first_max (s : list (L * V)) (k : L) :
  Forall (fun x => D (snd x)) s ->
  idxmax gtb s = Ok k -> exists v, first_max gtb (k, v) s.
Proof.
  destruct s as [|x rest]; simpl; [discriminate|]. intros HD [= <-].
  exists (snd (argmax_from gtb x rest)). rewrite <- surjective_pairing.
  now apply argmax_from_first_max.
Qed.

End IdxMaxFacts.

Lemma idxmax_nonempty {L V : Type} (gtb : V -> V -> bool) (s : list (L * V)) :
  s <> [] -> exists k, idxmax gtb s = Ok k.
Proof. destruct s; [congruence | intros _; eexists; reflexivity]. Qed.

(** ** The orders used as group keys and as values *)

Lemma Z_compare_gt (a b : Z) : (a ?= b) = Gt -> (b ?= a) = Lt.
Proof. rewrite Z.compare_gt_iff, Z.compare_lt_iff. lia. Qed.

Lemma Z_compare_trans (a b c : Z) : (a ?= b) = Lt -> (b ?= c) = Lt -> (a ?= c) = Lt.
Proof. rewrite !Z.compare_lt_iff. lia. Qed.

Lemma string_compare_eq (a b : string) : string_compare a b = Eq -> a = b.
Proof.
  unfold string_compare. destruct (String_as_OT.compare_spec a b); congruence.
Qed.

Lemma string_compare_gt (a b : string) :
  string_compare a b = Gt -> string_compare b a = Lt.
Proof.
  unfold string_compare. destruct (String_as_OT.compare_spec a b); congruence.
Qed.

Lemma string_compare_trans (a b c : string) :
  string_compare a b = Lt -> string_compare b c = Lt -> string_compare a c = Lt.
Proof.
  intros H1 H2.
  exact (StrictOrder_Transitive (R := String_as_OT.lt) a b c H1 H2).
Qed.

Lemma Zgtb_asym (x y : Z) : True -> True -> (x >? y) = true -> (y >? x) = false.
Proof. intros _ _. rewrite Z.gtb_ltb, Z.gtb_ltb, Z.ltb_lt, Z.ltb_ge. lia. Qed.

Lemma Zgtb_cotrans (x y z : Z) :
  True -> True -> True -> (x >? z) = true -> (x >? y) = false -> (y >? z) = true.
Proof. intros _ _ _. rewrite !Z.gtb_ltb, !Z.ltb_lt, Z.ltb_ge. lia. Qed.

Lemma fgtb_asym (x y : float) :
  not_nan x -> not_nan y -> fgtb x y = true -> fgtb y x = false.
Proof.
  destruct x as [a| | |], y as [b| | |]; simpl; try discriminate; try reflexivity.
  intros _ _. destruct (Qccompare a b) eqn:E; try discriminate. intros _.
  apply Qcgt_alt in E. destruct (Qccompare b a) eqn:E'; try reflexivity.
  apply Qcgt_alt in E'. exfalso. exact (Qclt_not_le _ _ E (Qclt_le_weak _ _ E')).
Qed.

Lemma fgtb_cotrans (x y z : float) :
  not_nan x -> not_nan y -> not_nan z ->
  fgtb x z = true -> fgtb x y = false -> fgtb y z = true.
Proof.
  destruct x as [a| | |], y as [b| | |], z as [c| | |]; simpl;
    try discriminate; try reflexivity.
  intros _ _ _.
  destruct (Qccompare a c) eqn:E; try discriminate. intros _.
  apply Qcgt_alt in E.
  destruct (Qccompare a b) eqn:E'; try discriminate; intros _.
  - apply Qceq_alt in E'. subst b.
    apply Qcgt_alt in E. now rewrite E.
  - apply Qclt_alt in E'. assert (H : (c < b)%Qc) by exact (Qclt_trans _ _ _ E E').
    apply Qcgt_alt in H. now rewrite H.
Qed.

(** ** Series with the default index *)

Lemma map_snd_combine_seq {A : Type} (vals : list A) (a : nat) :
  map snd (combine (seq a (List.length vals)) vals) = vals.
Proof.
  revert a. induction vals as [|x vals IH]; intros a; simpl; [reflexivity|].
  now rewrite IH.
Qed.

Lemma combine_seq_split {A : Type} (vals : list A) (a : nat)
    (l1 l2 : list (nat * A)) (i : nat) (v : A) :
  combine (seq a (List.length vals)) vals = (l1 ++ (i, v) :: l2)%list ->
  i = (a + List.length l1)%nat /\ vals = (map snd l1 ++ v :: map snd l2)%list.
Proof.
  revert a l1. induction vals as [|x vals IH]; intros a l1; simpl.
  - destruct l1; discriminate.
  - destruct l1 as [|y l1]; simpl.
    + intros [= <- <- E]. split; [lia|]. f_equal.
      now rewrite <- E, map_snd_combine_seq.
    + intros [= <- E]. destruct (IH _ _ E) as [-> ->]. split; [simpl; lia | reflexivity].
Qed.

Lemma enumerate_nonempty {A : Type} (vals : list A) : vals <> [] -> enumerate vals <> [].
Proof. destruct vals; [congruence | discriminate]. Qed.

Lemma enumerate_values {A : Type} (vals : list A) (x : nat * A) :
  In x (enumerate vals) -> In (snd x) vals.
Proof. destruct x as [i v]. apply in_combine_r. Qed.

(** ** The seasonality frame *)

Lemma getitem_meses (m : Z) : 1 <= m <= 12 -> exists nome, getitem meses (m - 1) = Ok nome.
Proof.
  intros H.
  assert (E : m = 1 \/ m = 2 \/ m = 3 \/ m = 4 \/ m = 5 \/ m = 6 \/ m = 7
              \/ m = 8 \/ m = 9 \/ m = 10 \/ m = 11 \/ m = 12) by lia.
  repeat (destruct E as [->|E]; [eexists; reflexivity|]). subst. eexists; reflexivity.
Qed.

Lemma add_mes_nome_ok (rows : list (Z * float)) (sz : list SazonalRow) :
  add_mes_nome rows = Ok sz ->
  map month_and_mean sz = rows
  /\ Forall (fun r => getitem meses (mes r - 1) = Ok (mes_nome r)) sz.
Proof.
  revert sz. induction rows as [|[m v] rows IH]; intros sz; simpl.
  - intros [= <-]. split; [reflexivity | constructor].
  - destruct (getitem meses (m - 1)) as [nome|] eqn:G; [|discriminate].
    destruct (add_mes_nome rows) as [rest|]; [|discriminate].
    intros [= <-]. destruct (IH rest eq_refl) as [E F]. split.
    + simpl. now rewrite E.
    + constructor; [exact G | exact F].
Qed.

Lemma add_mes_nome_total (rows : list (Z * float)) :
  Forall (fun mv => 1 <= fst mv <= 12) rows -> exists sz, add_mes_nome rows = Ok sz.
Proof.
  induction 1 as [|[m v] rows Hm _ IH]; simpl; [now eexists|].
  destruct (getitem_meses m Hm) as [nome ->]. destruct IH as [rest ->]. now eexists.
Qed.

Lemma idxmax_float_all {L : Type} (s : list (L * float)) :
  Forall (fun x => not_nan (snd x)) s -> idxmax_float s = idxmax fgtb s.
Proof.
  intros H. unfold idxmax_float. f_equal. apply filter_all.
  rewrite Forall_forall in H. intros x Hx. unfold not_nan in H. now rewrite (H x Hx).
Qed.

(** [melhor_mes] reads the name in the first row that holds the maximum. *)
Lemma melhor_mes_first_max (sz : list SazonalRow) (nome : string) :
  Forall (fun r => not_nan (visitantes_media r)) sz ->
  melhor_mes sz = Ok nome ->
  exists sz1 r sz2,
    sz = (sz1 ++ r :: sz2)%list
    /\ mes_nome r = nome
    /\ (forall x, In x sz1 -> fgtb (visitantes_media r) (visitantes_media x) = true)
    /\ (forall x, In x sz2 -> fgtb (visitantes_media x) (visitantes_media r) = false).
Proof.
  intros Hnan. unfold melhor_mes. set (vals := map visitantes_media sz).
  assert (Hvals : Forall (fun x => not_nan (snd x)) (enumerate vals)).
  { rewrite Forall_forall in *. intros x Hx. apply enumerate_values in Hx.
    apply in_map_iff in Hx. destruct Hx as (r & <- & Hr). now apply Hnan. }
  rewrite (idxmax_float_all _ Hvals).
  destruct (idxmax fgtb (enumerate vals)) as [i|] eqn:E; [|discriminate].
  destruct (idxmax_first_max fgtb not_nan fgtb_asym fgtb_cotrans _ _ Hvals E)
    as (v & l1 & l2 & Es & H1 & H2).
  destruct (combine_seq_split _ _ _ _ _ _ Es) as [Hi Hv]. simpl in Hi.
  unfold vals in Hv. apply map_eq_app in Hv. destruct Hv as (sz1 & sz' & -> & E1 & E').
  apply map_eq_cons in E'. destruct E' as (r & sz2 & -> & Er & E2).
  assert (Hlen : List.length sz1 = i).
  { rewrite Hi. rewrite <- (length_map visitantes_media sz1), E1. apply length_map. }
  unfold loc. rewrite nth_error_app2 by lia.
  replace (i - List.length sz1)%nat with 0%nat by lia. simpl. intros [= <-].
  exists sz1, r, sz2. split; [reflexivity|]. split; [reflexivity|]. rewrite Er. split.
  - intros x Hx. assert (Hin : In (visitantes_media x) (map snd l1)).
    { rewrite <- E1. now apply in_map. }
    apply in_map_iff in Hin. destruct Hin as (y & <- & Hy). exact (H1 y Hy).
  - intros x Hx. assert (Hin : In (visitantes_media x) (map snd l2)).
    { rewrite <- E2. now apply in_map. }
    apply in_map_iff in Hin. destruct Hin as (y & <- & Hy). exact (H2 y Hy).
Qed.

Lemma melhor_mes_total (sz : list SazonalRow) :
  sz <> [] -> Forall (fun r => not_nan (visitantes_media r)) sz ->
  exists nome, melhor_mes sz = Ok nome.
Proof.
  intros Hne Hnan. destruct sz as [|r0 rest]; [congruence|].
  destruct (melhor_mes (r0 :: rest)) as [nome|e] eqn:E; [now eexists|]. exfalso.
  revert E. unfold melhor_mes. set (vals := map visitantes_media (r0 :: rest)).
  assert (Hvals : Forall (fun x => not_nan (snd x)) (enumerate vals)).
  { rewrite Forall_forall in *. intros x Hx. apply enumerate_values in Hx.
    apply in_map_iff in Hx. destruct Hx as (r & <- & Hr). now apply Hnan. }
  rewrite (idxmax_float_all _ Hvals).
  destruct (idxmax fgtb (enumerate vals)) as [i|] eqn:E; [|discriminate].
  destruct (idxmax_first_max fgtb not_nan fgtb_asym fgtb_cotrans _ _ Hvals E)
    as (v & l1 & l2 & Es & _).
  destruct (combine_seq_split _ _ _ _ _ _ Es) as [Hi Hv]. simpl in Hi.
  unfold loc. destruct (nth_error (r0 :: rest) i) eqn:N; [discriminate|].
  apply nth_error_None in N. apply (f_equal (@List.length float)) in Hv.
  unfold vals in Hv. rewrite length_map, length_app in Hv. simpl in Hv.
  rewrite length_map in Hv. simpl in N. lia.
Qed.

(** ** The grouped aggregates of a filtered frame *)

Lemma by_province_ascending (df : DataFrame) : ascending string_compare (by_province df).
Proof. apply ascending_map, groupby_ascending;
  [exact string_compare_eq | exact string_compare_gt | exact string_compare_trans]. Qed.

Lemma by_month_ascending (df : DataFrame) : ascending Z.compare (by_month df).
Proof. apply ascending_map, groupby_ascending;
  [exact Z.compare_eq | exact Z_compare_gt | exact Z_compare_trans]. Qed.

Lemma by_province_nonempty (df : DataFrame) : df <> [] -> by_province df <> [].
Proof.
  intros H E. apply map_eq_nil in E. revert E. apply groupby_nonempty.
  intros E. apply map_eq_nil in E. contradiction.
Qed.

Lemma by_month_nonempty (df : DataFrame) : df <> [] -> by_month df <> [].
Proof.
  intros H E. apply map_eq_nil in E. revert E. apply groupby_nonempty.
  intros E. apply map_eq_nil in E. contradiction.
Qed.

(** Each month of [by_month] is a calendar month, has a row of the frame in
    it, and carries the rational mean of a non-empty group. *)
Lemma by_month_entry (df : DataFrame) (m : Z) (v : float) :
  In (m, v) (by_month df) ->
  1 <= m <= 12
  /\ (exists r, In r df /\ month_of (data r) = m)
  /\ exists vs, vs <> [] /\ v = Fin (spec_mean vs)
       /\ forall x, In x vs -> exists r, In r df /\ month_of (data r) = m /\ visitantes r = x.
Proof.
  unfold by_month, groupby_mean. intros H. apply in_map_iff in H.
  destruct H as ([k vs] & [= <- <-] & Hg). simpl.
  destruct (groupby_groups Z.compare Z.compare_eq _ _ _ Hg) as [Hne Hv].
  assert (Hrow : forall x, In x vs ->
            exists r, In r df /\ month_of (data r) = k /\ visitantes r = x).
  { intros x Hx. specialize (Hv x Hx). apply in_map_iff in Hv.
    destruct Hv as (r & [= <- <-] & Hr). now exists r. }
  destruct vs as [|x vs]; [congruence|].
  destruct (Hrow x (or_introl eq_refl)) as (r & Hr & Hm & _).
  split; [rewrite <- Hm; apply month_of_range|].
  split; [now exists r|].
  exists (x :: vs). split; [discriminate|]. split; [|exact Hrow].
  apply mean_nonempty. discriminate.
Qed.

Lemma by_month_not_nan (df : DataFrame) :
  Forall (fun mv => not_nan (snd mv)) (by_month df).
Proof.
  rewrite Forall_forall. intros [m v] H.
  destruct (by_month_entry _ _ _ H) as (_ & _ & vs & _ & -> & _). reflexivity.
Qed.

Lemma df_sazonal_total (df : DataFrame) :
  exists sz, df_sazonal df = Ok sz /\ map month_and_mean sz = by_month df.
Proof.
  unfold df_sazonal. destruct (add_mes_nome_total (by_month df)) as [sz E].
  - rewrite Forall_forall. intros [m v] H. now destruct (by_month_entry _ _ _ H).
  - exists sz. split; [exact E|]. now destruct (add_mes_nome_ok _ _ E).
Qed.

Lemma sazonal_not_nan (df : DataFrame) (sz : list SazonalRow) :
  map month_and_mean sz = by_month df ->
  Forall (fun r => not_nan (visitantes_media r)) sz.
Proof.
  intros E. assert (H := by_month_not_nan df). rewrite <- E in H.
  rewrite Forall_forall in *. intros r Hr.
  exact (H (month_and_mean r) (in_map _ _ _ Hr)).
Qed.

(** ** The insight section *)

(** What [insight_generator] emits, by the outcome of its two lookups. *)
Lemma insight_generator_cases (by_prov : list (string * Z)) (c : float)
    (sz : list SazonalRow) :
  insight_generator by_prov c sz =
    match provincia_top by_prov with
    | Raise e => ([], Raise e)
    | Ok p =>
        match melhor_mes sz with
        | Raise e => ([TopDestination p; Trend (trend_of c) (fabs c)], Raise e)
        | Ok m => ([TopDestination p; Trend (trend_of c) (fabs c); PeakSeason m], Ok tt)
        end
    end.
Proof.
  unfold insight_generator, bind, lift, emit.
  destruct (provincia_top by_prov); [|reflexivity].
  destruct (melhor_mes sz); reflexivity.
Qed.

Lemma main_insights_cases (df : DataFrame) :
  exists sz,
    df_sazonal df = Ok sz /\ map month_and_mean sz = by_month df
    /\ main_insights df =
         insight_generator (by_province df) (delta_visitantes df) sz.
Proof.
  destruct (df_sazonal_total df) as (sz & E & M). exists sz.
  split; [exact E|]. split; [exact M|].
  unfold main_insights, bind, lift. rewrite E.
  now destruct (insight_generator (by_province df) (delta_visitantes df) sz).
Qed.

(** On a non-empty frame all three insights are emitted, in order. *)
Lemma main_insights_nonempty (df : DataFrame) :
  df <> [] ->
  exists sz p m,
    df_sazonal df = Ok sz /\ map month_and_mean sz = by_month df
    /\ provincia_top (by_province df) = Ok p
    /\ melhor_mes sz = Ok m
    /\ main_insights df =
         ([TopDestination p;
           Trend (trend_of (delta_visitantes df)) (fabs (delta_visitantes df));
           PeakSeason m], Ok tt).
Proof.
  intros Hne. destruct (main_insights_cases df) as (sz & E & M & ->).
  rewrite insight_generator_cases.
  destruct (idxmax_nonempty Z.gtb _ (by_province_nonempty df Hne)) as [p Hp].
  assert (Hsz : sz <> []).
  { intros ->. simpl in M. symmetry in M. now apply by_month_nonempty in M. }
  destruct (melhor_mes_total sz Hsz (sazonal_not_nan df sz M)) as [m Hm].
  exists sz, p, m. unfold provincia_top. rewrite Hp, Hm. auto.
Qed.

(** ** Trend *)

(** C3, as stated, fails: nothing in the script signals an undefined trend.
    With a head window of zeros the delta is +inf, the trend box is rendered
    with it, and the text reads "inf%"; on an empty series the delta is NaN. *)
Lemma trend_text_shows_infinity :
  delta_visitantes zero_head_frame = PInf
  /\ main "Todos os dados" [] zero_head_frame
     = ([TopDestination "Luanda"; Trend "crescimento" PInf; PeakSeason "Fev"], Ok tt)
  /\ insight_text (Trend "crescimento" PInf)
     = [Lit "O turismo está em <strong>"; Fmt (VStr "crescimento") "";
        Lit "</strong> com variação de <strong>"; Fmt (VFloat PInf) ".1f";
        Lit "%</strong>."]
  /\ format_special PInf = Some "inf"
  /\ delta_percent [] = NaN.
Proof. repeat split; reflexivity. Qed.

(** C3 (amended): the trend computation has no undefined-trend result.  Its
    delta is not finite exactly when the series is empty or the head window
    sums to zero: NaN for the empty series, and NaN, -inf or +inf by the sign
    of the tail window's sum for a zero head.  The trend box is rendered with
    the absolute value of the delta whenever the top-destination box before
    it was, so a delta that is not finite reaches the text as "nan" or
    "inf". *)
Theorem trend_has_no_undefined_result :
  forall (s : list Z),
    (is_finite (delta_percent s) = false <-> s = [] \/ sum (head 3 s) = 0)
    /\ (s = [] -> delta_percent s = NaN)
    /\ (s <> [] -> sum (head 3 s) = 0 ->
        delta_percent s = match sum (tail 3 s) ?= 0 with
                          | Eq => NaN
                          | Lt => NInf
                          | Gt => PInf
                          end)
    /\ (forall by_prov sz p,
          provincia_top by_prov = Ok p ->
          In (Trend (trend_of (delta_percent s)) (fabs (delta_percent s)))
             (emitted (insight_generator by_prov (delta_percent s) sz)))
    /\ (is_finite (delta_percent s) = false ->
        In (Fmt (VFloat (fabs (delta_percent s))) ".1f")
           (insight_text (Trend (trend_of (delta_percent s)) (fabs (delta_percent s))))
        /\ (format_special (fabs (delta_percent s)) = Some "nan"
            \/ format_special (fabs (delta_percent s)) = Some "inf")).
Proof.
  intros s. split; [apply delta_percent_finite|]. split; [now intros ->|].
  split; [|split].
  - intros Hs Hh. rewrite delta_percent_cases. destruct s; [congruence|].
    now rewrite Hh.
  - intros by_prov sz p Hp. rewrite insight_generator_cases, Hp.
    destruct (melhor_mes sz); simpl; auto.
  - intros Hf. split; [simpl; auto|].
    destruct (delta_percent s); simpl; auto; discriminate.
Qed.

(** ** Insights on an empty frame *)

(** C4, as stated, fails: with no province totals, no monthly means and a
    NaN delta the insight section raises [ValueError] at its first lookup. *)
Lemma insights_on_empty_frame_raise :
  by_province [] = [] /\ by_month [] = [] /\ delta_visitantes [] = NaN
  /\ df_sazonal [] = Ok []
  /\ insight_generator [] NaN [] = ([], Raise ValueError)
  /\ outcome (main_insights []) = Raise ValueError.
Proof. repeat split; reflexivity. Qed.

(** C4 (amended): no insight is ever left out silently.  On an empty filtered
    frame the insight section raises [ValueError] at the top-destination
    lookup, whatever the delta and the seasonality frame are, and emits
    nothing; on every non-empty filtered frame it emits all three insights,
    in the order TopDestination, Trend, PeakSeason, whatever the delta is. *)
Theorem insights_all_or_error :
  main_insights [] = ([], Raise ValueError)
  /\ (forall c sz, insight_generator (by_province []) c sz = ([], Raise ValueError))
  /\ (forall r df,
        exists p m,
          main_insights (r :: df) =
            ([TopDestination p;
              Trend (trend_of (delta_visitantes (r :: df)))
                    (fabs (delta_visitantes (r :: df)));
              PeakSeason m], Ok tt)).
Proof.
  split; [reflexivity|]. split; [intros c sz; reflexivity|].
  intros r df.
  destruct (main_insights_nonempty (r :: df)) as (sz & p & m & _ & _ & _ & _ & E);
    [discriminate|].
  now exists p, m.
Qed.

(** ** Means *)

Lemma mean_float_nonempty (s : list Qc) :
  s <> [] -> mean_float s = Fin (qsum s / Qc_of_Z (Z.of_nat (List.length s)))%Qc.
Proof.
  intros H. unfold mean_float, of_int, fdiv. rewrite Qcsign_of_Z.
  apply length_pos in H.
  now destruct (Z.compare_spec (Z.of_nat (List.length s)) 0); try lia.
Qed.

(** C5, as stated, fails: on the empty frame both means are NaN, and the
    satisfaction card is labelled from it. *)
Lemma means_of_empty_frame_are_nan :
  means [] = (NaN, NaN)
  /\ is_nan (fst (means [])) = true
  /\ is_nan (snd (means [])) = true
  /\ satisfacao_label (snd (means [])) = "Regular".
Proof. repeat split; reflexivity. Qed.

(** C5 (amended): the means of the empty frame are NaN (the library's 0/0),
    not zero and not a separate marker; the means of a non-empty frame are
    the sums over the number of rows. *)
Theorem means_empty_is_nan :
  means [] = (NaN, NaN)
  /\ (forall r df,
        let n := Qc_of_Z (Z.of_nat (List.length (r :: df))) in
        means (r :: df)
        = (Fin (qsum (map estadia_media (r :: df)) / n)%Qc,
           Fin (qsum (map satisfacao (r :: df)) / n)%Qc)).
Proof.
  split; [reflexivity|]. intros r df n. unfold means.
  rewrite !mean_float_nonempty by discriminate. now rewrite !length_map.
Qed.

(** ** The head-tail delta against the specification's formula *)

Lemma head_map {A B : Type} (f : A -> B) (n : nat) (l : list A) :
  head n (map f l) = map f (head n l).
Proof. unfold head. apply firstn_map. Qed.

Lemma tail_map {A B : Type} (f : A -> B) (n : nat) (l : list A) :
  tail n (map f l) = map f (tail n l).
Proof. unfold tail. rewrite length_map. apply skipn_map. Qed.

Lemma tail_is_last_rows (df : DataFrame) : tail 3 df = last_rows df.
Proof. unfold tail, last_rows. now rewrite firstn_rev, rev_involutive. Qed.

Lemma delta_visitantes_rows (df : DataFrame) : delta_visitantes df = spec_row_delta df.
Proof.
  unfold delta_visitantes, delta_percent, spec_row_delta.
  now rewrite head_map, tail_map, tail_is_last_rows.
Qed.

(** C6, as stated, fails: the series the delta is computed from is not the
    series of per-period totals.  On a frame of two provinces over four
    months the totals per period are 101, 112, 123, 134, on which the formula
    gives 275/28 (a growth of 9.8 percent); the script computes -7400/211
    from the first three and the last three rows, and renders a decline of
    35.1 percent. *)
Lemma trend_reads_rows_not_period_totals :
  df_mensal two_province_frame = [(18292, 101); (18321, 112); (18352, 123); (18382, 134)]
  /\ spec_delta_percent (map snd (df_mensal two_province_frame)) = Q2Qc (275 # 28)
  /\ delta_percent (map snd (df_mensal two_province_frame)) = Fin (Q2Qc (275 # 28))
  /\ trend_of (Fin (spec_delta_percent (map snd (df_mensal two_province_frame))))
     = "crescimento"
  /\ head 3 (map visitantes two_province_frame) = [100; 1; 110]
  /\ tail 3 (map visitantes two_province_frame) = [3; 130; 4]
  /\ delta_visitantes two_province_frame = Fin (Q2Qc (-7400 # 211))
  /\ delta_visitantes two_province_frame
     <> Fin (spec_delta_percent (map snd (df_mensal two_province_frame)))
  /\ main "Todos os dados" [] two_province_frame
     = ([TopDestination "Luanda";
         Trend "decrescimento" (fabs (delta_visitantes two_province_frame));
         PeakSeason "Abr"], Ok tt).
Proof.
  assert (E1 : spec_delta_percent (map snd (df_mensal two_province_frame))
               = Q2Qc (275 # 28)) by (apply Qc_is_canon; vm_compute; reflexivity).
  assert (E2 : delta_visitantes two_province_frame = Fin (Q2Qc (-7400 # 211)))
    by (vm_compute; f_equal; apply Qc_is_canon; reflexivity).
  split; [reflexivity|]. split; [exact E1|].
  split; [vm_compute; f_equal; apply Qc_is_canon; reflexivity|].
  split; [rewrite E1; reflexivity|].
  split; [reflexivity|]. split; [reflexivity|]. split; [exact E2|].
  split; [rewrite E1, E2; intros [= H]; discriminate H|].
  vm_compute. reflexivity.
Qed.

(** C6 (amended): the trend computation reads the visitors column of the
    filtered frame row by row, one row being one province on one date, not a
    series of per-period totals.  On every non-empty filtered frame its two
    windows are the first three and the last three rows, each holds at least
    one row and has a finite mean, and the delta is the float64 value of
    [(mean(last 3 rows) / mean(first 3 rows) - 1) * 100]; a frame of at most
    three rows has all its rows in both windows.  This delta is the one the
    trend insight is rendered from. *)
Theorem delta_visitantes_reads_rows :
  forall (df : DataFrame),
    df <> [] ->
    head 3 (map visitantes df) = map visitantes (first_rows df)
    /\ tail 3 (map visitantes df) = map visitantes (last_rows df)
    /\ first_rows df <> [] /\ last_rows df <> []
    /\ is_finite (mean (map visitantes (first_rows df))) = true
    /\ is_finite (mean (map visitantes (last_rows df))) = true
    /\ delta_visitantes df = spec_row_delta df
    /\ ((List.length df <= 3)%nat -> first_rows df = df /\ last_rows df = df)
    /\ exists p m,
         main_insights df
         = ([TopDestination p;
             Trend (trend_of (spec_row_delta df)) (fabs (spec_row_delta df));
             PeakSeason m], Ok tt).
Proof.
  intros df Hne.
  assert (Hh : first_rows df <> []) by exact (head_nonempty 2 df Hne).
  assert (Ht : last_rows df <> []).
  { rewrite <- tail_is_last_rows. exact (tail_nonempty 2 df Hne). }
  assert (Hfin : forall w : DataFrame, w <> [] -> is_finite (mean (map visitantes w)) = true).
  { intros w Hw. rewrite mean_nonempty; [reflexivity|].
    intros E. apply map_eq_nil in E. contradiction. }
  split; [apply head_map|].
  split; [rewrite tail_map; now rewrite tail_is_last_rows|].
  split; [exact Hh|]. split; [exact Ht|].
  split; [now apply Hfin|]. split; [now apply Hfin|].
  split; [apply delta_visitantes_rows|].
  split.
  - intros Hl. rewrite <- tail_is_last_rows. exact (short_series_windows df Hl).
  - destruct (main_insights_nonempty df Hne) as (sz & p & m & _ & _ & _ & _ & E).
    exists p, m. now rewrite <- delta_visitantes_rows.
Qed.

Lemma delta_visitantes_reads_rows_witness :
  two_province_frame <> []
  /\ delta_visitantes two_province_frame = spec_row_delta two_province_frame
  /\ first_rows two_province_frame <> [].
Proof.
  assert (H : two_province_frame <> []) by discriminate.
  split; [exact H|]. split.
  - exact (proj1 (proj2 (proj2 (proj2 (proj2 (proj2
      (proj2 (delta_visitantes_reads_rows two_province_frame H)))))))).
  - exact (proj1 (proj2 (proj2 (delta_visitantes_reads_rows two_province_frame H)))).
Defined.

(** ** Tie-breaks *)

(** C7: the province shown as top destination holds the maximum total, and
    every other province with the same total comes after it in the lexical
    order of the names; the month shown as peak season holds the maximum
    mean, and every other month with the same mean has a greater number. *)
Theorem idxmax_tie_break :
  forall (df : DataFrame) (p nome : string),
    In (TopDestination p) (emitted (main_insights df)) ->
    In (PeakSeason nome) (emitted (main_insights df)) ->
    (exists t,
        In (p, t) (by_province df)
        /\ forall p' t', In (p', t') (by_province df) ->
             t' <= t /\ (t' = t -> p' = p \/ string_compare p p' = Lt))
    /\ (exists m v,
          In (m, v) (by_month df)
          /\ getitem meses (m - 1) = Ok nome
          /\ forall m' v', In (m', v') (by_month df) ->
               fgtb v' v = false /\ (v' = v -> m <= m')).
Proof.
  intros df p nome Hp Hn.
  destruct df as [|r0 df0]; [destruct Hp|]. set (df := r0 :: df0) in *.
  destruct (main_insights_nonempty df) as (sz & p0 & m0 & Esz & M & Ep & Em & E);
    [discriminate|].
  rewrite E in Hp, Hn. simpl in Hp, Hn.
  destruct Hp as [[= <-]|[Hp|[Hp|[]]]]; try discriminate.
  destruct Hn as [Hn|[Hn|[[= <-]|[]]]]; try discriminate.
  split.
  - unfold provincia_top in Ep.
    destruct (idxmax_first_max Z.gtb (fun _ => True) Zgtb_asym Zgtb_cotrans
                (by_province df) p0) as (t & l1 & l2 & El & H1 & H2);
      [rewrite Forall_forall; auto | exact Ep |].
    exists t. split; [rewrite El; apply in_or_app; right; now left|].
    intros p' t' Hin. assert (Hasc := by_province_ascending df).
    rewrite El in Hin, Hasc. apply in_app_or in Hin.
    destruct Hin as [Hin|[[= <- <-]|Hin]].
    + specialize (H1 _ Hin). simpl in H1. apply Z.gtb_lt in H1. split; lia.
    + split; [lia | now left].
    + specialize (H2 _ Hin). simpl in H2. rewrite Z.gtb_ltb in H2.
      apply Z.ltb_ge in H2. split; [exact H2|]. intros _. right.
      exact (ascending_after string_compare l1 l2 (p0, t) (p', t') Hasc Hin).
  - assert (Hnan := sazonal_not_nan df sz M).
    destruct (melhor_mes_first_max sz m0 Hnan Em) as (sz1 & r & sz2 & -> & Er & H1 & H2).
    assert (Hr : not_nan (visitantes_media r)).
    { rewrite Forall_forall in Hnan. apply Hnan. apply in_or_app. right. now left. }
    exists (mes r), (visitantes_media r).
    assert (Hasc := by_month_ascending df). rewrite <- M in Hasc |- *.
    rewrite map_app in Hasc |- *. cbn [map] in Hasc |- *.
    split; [apply in_or_app; right; now left|]. split.
    + unfold df_sazonal in Esz. destruct (add_mes_nome_ok _ _ Esz) as [_ F].
      rewrite Forall_forall in F. rewrite <- Er. apply F. apply in_or_app. right. now left.
    + intros m' v' Hin. apply in_app_or in Hin.
      destruct Hin as [Hin|[[= <- <-]|Hin]].
      * apply in_map_iff in Hin. destruct Hin as (x & [= <- <-] & Hx).
        assert (Hxn : not_nan (visitantes_media x)).
        { rewrite Forall_forall in Hnan. apply Hnan. apply in_or_app. now left. }
        specialize (H1 x Hx). split; [now apply fgtb_asym|].
        intros Ev. rewrite Ev in H1.
        rewrite (gtb_irrefl fgtb not_nan fgtb_asym _ Hr) in H1. discriminate.
      * split; [exact (gtb_irrefl fgtb not_nan fgtb_asym _ Hr) | lia].
      * split.
        -- apply in_map_iff in Hin. destruct Hin as (x & [= <- <-] & Hx). now apply H2.
        -- intros _.
           assert (Hlt := ascending_after Z.compare _ _ (month_and_mean r) (m', v') Hasc Hin).
           apply Z.lt_le_incl. exact Hlt.
Qed.

Lemma tie_frame_insights :
  emitted (main_insights tie_frame)
    = [TopDestination "Benguela"; Trend "decrescimento" (of_int 0); PeakSeason "Jan"].
Proof. vm_compute. reflexivity. Qed.

Lemma idxmax_tie_break_witness :
  emitted (main_insights tie_frame)
    = [TopDestination "Benguela"; Trend "decrescimento" (of_int 0); PeakSeason "Jan"]
  /\ exists t, In ("Benguela", t) (by_province tie_frame)
       /\ forall p' t', In (p', t') (by_province tie_frame) ->
            t' <= t /\ (t' = t -> p' = "Benguela" \/ string_compare "Benguela" p' = Lt).
Proof.
  split; [exact tie_frame_insights|].
  refine (proj1 (idxmax_tie_break tie_frame "Benguela" "Jan" _ _));
    rewrite tie_frame_insights; simpl; auto.
Defined.

(** ** Months *)

(** C8: every key of [by_month] is a month number from 1 to 12 and is the
    month of at least one row of the frame; its value is the mean of the
    visitors of a non-empty group of rows of that month, never NaN.  A month
    with no row in the frame is not a key. *)
Theorem by_month_keys_have_records :
  forall (df : DataFrame),
    Forall (fun mv =>
              1 <= fst mv <= 12
              /\ (exists r, In r df /\ month_of (data r) = fst mv)
              /\ is_nan (snd mv) = false
              /\ exists vs, vs <> [] /\ snd mv = Fin (spec_mean vs)
                   /\ forall x, In x vs ->
                        exists r, In r df /\ month_of (data r) = fst mv /\ visitantes r = x)
           (by_month df)
    /\ (forall m, (forall r, In r df -> month_of (data r) <> m) ->
                  ~ In m (map fst (by_month df))).
Proof.
  intros df. split.
  - rewrite Forall_forall. intros [m v] H.
    destruct (by_month_entry _ _ _ H) as (Hm & Hr & vs & Hne & Hv & Hvs).
    simpl. split; [exact Hm|]. split; [exact Hr|]. split; [now rewrite Hv|].
    now exists vs.
  - intros m Hnone Hin. apply in_map_iff in Hin. destruct Hin as ([m' v] & <- & H).
    destruct (by_month_entry _ _ _ H) as (_ & (r & Hr & Hm) & _).
    exact (Hnone r Hr Hm).
Qed.

(** ** The simplified version *)

Lemma emitted_bind {E A B : Type} (m : Run E A) (k : A -> Run E B) :
  emitted (bind m k)
  = (emitted m ++ match outcome m with
                  | Ok a => emitted (k a)
                  | Raise _ => []
                  end)%list.
Proof.
  destruct m as [out [a|e]]; simpl.
  - now destruct (k a).
  - now rewrite app_nil_r.
Qed.

Lemma outcome_bind {E A B : Type} (m : Run E A) (k : A -> Run E B) :
  outcome (bind m k)
  = match outcome m with
    | Ok a => outcome (k a)
    | Raise e => Raise e
    end.
Proof. destruct m as [out [a|e]]; simpl; [now destruct (k a) | reflexivity]. Qed.

Lemma argmax_from_In {L V : Type} (gtb : V -> V -> bool) (rest : list (L * V))
    (best : L * V) :
  In (argmax_from gtb best rest) (best :: rest).
Proof.
  revert best. induction rest as [|x rest IH]; intros best; simpl; [now left|].
  destruct (gtb (snd x) (snd best)).
  - right. apply IH.
  - destruct (IH best) as [H|H]; [now left | right; now right].
Qed.

(** [idxmax] of a non-empty series with the default index is a position of
    the series. *)
Lemma idxmax_enumerate {V : Type} (gtb : V -> V -> bool) (vals : list V) :
  vals <> [] ->
  exists i, idxmax gtb (enumerate vals) = Ok i /\ (i < List.length vals)%nat.
Proof.
  intros H. destruct (enumerate vals) as [|x rest] eqn:E.
  - now apply enumerate_nonempty in E.
  - simpl. eexists. split; [reflexivity|].
    assert (Hin := argmax_from_In gtb rest x). rewrite <- E in Hin.
    destruct (argmax_from gtb x rest) as [i v]. apply in_combine_l in Hin.
    apply in_seq in Hin. simpl. lia.
Qed.

Lemma bind_lift_ok {E A B : Type} (a : A) (k : A -> Run E B) :
  bind (lift (Ok a)) k = k a.
Proof. unfold bind, lift. now destruct (k a). Qed.

(** Sequencing runs, for a reading [pick] of traces that goes event by
    event. *)
Section Shows.
Context {E T : Type} (pick : list E -> list T).
Hypothesis pick_app : forall t1 t2, pick (t1 ++ t2) = (pick t1 ++ pick t2)%list.

Lemma shows_bind (m k : Run E unit) (l1 l2 : list T) :
  shows pick m l1 -> shows pick k l2 -> shows pick (bind m (fun _ => k)) (l1 ++ l2).
Proof.
  intros [Hm1 Hm2] [Hk1 Hk2]. unfold shows.
  rewrite outcome_bind, emitted_bind, Hm1, pick_app, Hm2, Hk2. now split.
Qed.

Lemma shows_emit (e : E) : shows pick (emit e) (pick [e]).
Proof. now split. Qed.

End Shows.

Module SimpleFacts.
Import Simple.

(** Steps through a sequence of output calls none of which is read as an
    insight. *)
Ltac quiet_steps pick_app :=
  repeat (apply (shows_bind _ pick_app _ _ [] _); [apply shows_emit|]).

Lemma streamlit_insights_app (t1 t2 : list Event) :
  streamlit_insights (t1 ++ t2) = (streamlit_insights t1 ++ streamlit_insights t2)%list.
Proof. apply flat_map_app. Qed.

Lemma console_insights_app (t1 t2 : list Event) :
  console_insights (t1 ++ t2) = (console_insights t1 ++ console_insights t2)%list.
Proof. apply flat_map_app. Qed.

Lemma table_rows_quiet (df : DataFrame) (i : nat) :
  shows streamlit_insights (table_rows i df) [].
Proof.
  revert i. induction df as [|row df IH]; intros i; [now split|].
  cbn [table_rows]. unfold say.
  apply (shows_bind _ streamlit_insights_app _ _ [] []); [apply shows_emit | apply IH].
Qed.

Lemma show_insights_shows (l : list string) :
  shows streamlit_insights (show_insights l) (map (fun s => [Lit s]) l).
Proof.
  induction l as [|s l IH]; [now split|].
  cbn [show_insights]. unfold say.
  apply (shows_bind _ streamlit_insights_app _ _ [[Lit s]] _); [now split | exact IH].
Qed.

Lemma metric_cards_quiet (df : DataFrame) : shows streamlit_insights (metric_cards df) [].
Proof.
  unfold metric_cards, say. quiet_steps streamlit_insights_app. apply shows_emit.
Qed.

Lemma charts_quiet (env : Env) : shows streamlit_insights (charts env) [].
Proof.
  unfold charts, say. destruct (PLOTLY_AVAILABLE env); [|apply shows_emit].
  destruct (chart_error env); quiet_steps streamlit_insights_app; apply shows_emit.
Qed.

(** The Streamlit version always finishes, and shows the five fixed insights
    unless [st.set_page_config] raised, in which case it shows none. *)
Lemma run_streamlit_version_shows (env : Env) (df : DataFrame) :
  shows streamlit_insights (run_streamlit_version env df)
    match set_page_config_error env with
    | Some _ => []
    | None => map (fun s => [Lit s]) insights
    end.
Proof.
  unfold run_streamlit_version. destruct (set_page_config_error env); [now split|].
  unfold say. quiet_steps streamlit_insights_app.
  apply (shows_bind _ streamlit_insights_app _ _ [] _).
  - unfold generate_sample_data, say. destruct (PANDAS_AVAILABLE env).
    + apply (shows_bind _ streamlit_insights_app _ _ [] _); [apply metric_cards_quiet|].
      apply (shows_bind _ streamlit_insights_app _ _ [] _); [apply charts_quiet|].
      quiet_steps streamlit_insights_app.
      apply (shows_bind _ streamlit_insights_app _ _ [] _); [apply table_rows_quiet|].
      apply shows_emit.
    + quiet_steps streamlit_insights_app. apply shows_emit.
  - quiet_steps streamlit_insights_app. apply show_insights_shows.
Qed.

Lemma show_dependencies_status_quiet (env : Env) :
  shows console_insights (show_dependencies_status env) [].
Proof.
  unfold show_dependencies_status, say. quiet_steps console_insights_app.
  apply shows_emit.
Qed.

(** On a frame with at least one row the statistics part finishes. *)
Lemma console_statistics_quiet (df : DataFrame) :
  df <> [] -> shows console_insights (console_statistics df) [].
Proof.
  intros Hne. unfold console_statistics, say. quiet_steps console_insights_app.
  destruct (idxmax_enumerate Z.gtb (map Visitantes_2024 df)) as (i & Ei & Hi).
  { intros E. apply map_eq_nil in E. contradiction. }
  rewrite Ei, bind_lift_ok. rewrite length_map in Hi. unfold loc.
  destruct (nth_error df i) as [r|] eqn:N.
  - rewrite bind_lift_ok. apply shows_emit.
  - apply nth_error_None in N. lia.
Qed.

Lemma console_tail_shows :
  shows console_insights
    (bind (say 78 (print [Lit (nl ++ "🎯 INSIGHTS PRINCIPAIS:")])) (fun _ =>
     bind (say 79 (print [Lit "• Luanda mantém liderança no turismo nacional"])) (fun _ =>
     bind (say 80 (print [Lit "• Crescimento médio de 15% no número de visitantes"])) (fun _ =>
     bind (say 81 (print [Lit "• Huíla apresenta maior índice de satisfação"])) (fun _ =>
     bind (say 82 (print [Lit "• Potencial de desenvolvimento no interior"])) (fun _ =>
     bind (say 84 (print [Lit (nl ++ "🔄 Para executar a versão web completa:")])) (fun _ =>
     bind (say 85 (print [Lit "1. Instale: pip install streamlit pandas plotly"])) (fun _ =>
          say 86 (print [Lit "2. Execute: streamlit run src/app.py"])))))))))
    console_bullets.
Proof. split; reflexivity. Qed.

(** The console version finishes and prints the four fixed bullets when
    pandas is missing or the frame has a row. *)
Lemma run_console_version_shows (env : Env) (df : DataFrame) :
  PANDAS_AVAILABLE env = false \/ df <> [] ->
  shows console_insights (run_console_version env df) console_bullets.
Proof.
  intros H. unfold run_console_version.
  apply (shows_bind _ console_insights_app _ _ [] _); [apply shows_emit|].
  apply (shows_bind _ console_insights_app _ _ [] _); [apply shows_emit|].
  apply (shows_bind _ console_insights_app _ _ [] _);
    [apply show_dependencies_status_quiet|].
  apply (shows_bind _ console_insights_app _ _ [] _); [|exact console_tail_shows].
  unfold generate_sample_data. destruct (PANDAS_AVAILABLE env).
  - destruct H as [H|H]; [discriminate | now apply console_statistics_quiet].
  - now split.
Qed.

(** With pandas installed and a frame without rows the console version
    stops at line 76 and prints no bullet. *)
Lemma run_console_version_empty (env : Env) :
  PANDAS_AVAILABLE env = true ->
  outcome (run_console_version env []) = Raise ValueError
  /\ console_insights (emitted (run_console_version env [])) = [].
Proof.
  intros H. unfold run_console_version, generate_sample_data. rewrite H.
  destruct env as [sa pa pl cfg ch]. destruct sa, pa, pl; split; reflexivity.
Qed.

(** C10, as stated, fails for the console version: with pandas installed, a
    frame without rows makes line 76 raise before the insight block, so that
    run prints no bullet while a run on the sample frame prints all four. *)
Lemma console_bullets_need_a_row :
  outcome (run_console_version env_all []) = Raise ValueError
  /\ console_insights (emitted (run_console_version env_all [])) = []
  /\ console_insights (emitted (run_console_version env_all sample_data)) = console_bullets.
Proof. repeat split; vm_compute; reflexivity. Qed.

(** C10 (amended): in one environment the insights the Streamlit version
    shows are the same for every pair of frames, and they are the five fixed
    strings whenever [st.set_page_config] did not raise; the bullets the
    console version prints are the four fixed strings for every pair of
    frames that have at least one row each, and for every pair of frames
    when pandas is not installed. *)
Theorem insights_do_not_depend_on_data :
  forall (env : Env) (df1 df2 : DataFrame),
    streamlit_insights (emitted (run_streamlit_version env df1))
    = streamlit_insights (emitted (run_streamlit_version env df2))
    /\ (set_page_config_error env = None ->
        outcome (run_streamlit_version env df1) = Ok tt
        /\ streamlit_insights (emitted (run_streamlit_version env df1))
           = map (fun s => [Lit s]) insights)
    /\ (PANDAS_AVAILABLE env = false \/ (df1 <> [] /\ df2 <> []) ->
        outcome (run_console_version env df1) = Ok tt
        /\ console_insights (emitted (run_console_version env df1)) = console_bullets
        /\ console_insights (emitted (run_console_version env df2)) = console_bullets).
Proof.
  intros env df1 df2.
  destruct (run_streamlit_version_shows env df1) as [Ho1 He1].
  destruct (run_streamlit_version_shows env df2) as [_ He2].
  split; [now rewrite He1, He2|]. split.
  - intros Hc. rewrite Hc in He1. now split.
  - intros H.
    destruct (run_console_version_shows env df1) as [Ho Hc1]; [tauto|].
    destruct (run_console_version_shows env df2) as [_ Hc2]; [tauto|].
    now repeat split.
Qed.

End SimpleFacts.

(** * Further properties of the code *)

(** ** groupby: totals, group contents, keys *)

Lemma sum_cons (x : Z) (l : list Z) : sum (x :: l) = x + sum l.
Proof. unfold sum. simpl. rewrite sum_from, (sum_from l 0). lia. Qed.

Lemma sum_app (a b : list Z) : sum (a ++ b) = sum a + sum b.
Proof.
  induction a as [|x a IH]; simpl; [reflexivity|]. rewrite !sum_cons, IH. lia.
Qed.

Section GroupByTotals.
Context {K : Type} (cmp : K -> K -> comparison).

(** The sum of the group sums. *)
Lemma add_to_group_total (k : K) (v : Z) (g : list (K * list Z)) :
  sum (map (fun x => sum (snd x)) (add_to_group cmp k v g))
  = sum (map (fun x => sum (snd x)) g) + v.
Proof.
  induction g as [|[k0 vs0] g IH]; simpl; [reflexivity|].
  destruct (cmp k k0); cbn [map snd].
  - rewrite !sum_cons, sum_app, sum_cons. change (sum []) with 0. lia.
  - rewrite !sum_cons. change (sum []) with 0. lia.
  - rewrite !sum_cons, IH. lia.
Qed.

Lemma fold_groups_total (rows : list (K * Z)) (g : list (K * list Z)) :
  sum (map (fun x => sum (snd x))
         (fold_left (fun g kv => add_to_group cmp (fst kv) (snd kv) g) rows g))
  = sum (map (fun x => sum (snd x)) g) + sum (map snd rows).
Proof.
  revert g. induction rows as [|[k v] rows IH]; intros g; simpl.
  - change (sum []) with 0. lia.
  - rewrite IH, add_to_group_total, sum_cons. lia.
Qed.

(** The grouped sums add up to the sum of the column. *)
Lemma groupby_sum_total (rows : list (K * Z)) :
  sum (map snd (groupby_sum cmp rows)) = sum (map snd rows).
Proof.
  unfold groupby_sum, groupby. rewrite map_map. cbn [snd].
  rewrite fold_groups_total. reflexivity.
Qed.

End GroupByTotals.

Section GroupByExact.
Context {K V : Type} (cmp : K -> K -> comparison).
Hypothesis cmp_eq : forall a b, cmp a b = Eq -> a = b.
Hypothesis cmp_refl : forall a, cmp a a = Eq.
Hypothesis cmp_gt : forall a b, cmp a b = Gt -> cmp b a = Lt.
Hypothesis cmp_trans : forall a b c, cmp a b = Lt -> cmp b c = Lt -> cmp a c = Lt.

Lemma cmp_lt_neq (a b : K) : cmp a b = Lt -> a <> b.
Proof. intros H ->. rewrite cmp_refl in H. discriminate. Qed.

Lemma values_with_key_app (k : K) (r1 r2 : list (K * V)) :
  values_with_key cmp k (r1 ++ r2)
  = (values_with_key cmp k r1 ++ values_with_key cmp k r2)%list.
Proof. unfold values_with_key. now rewrite filter_app, map_app. Qed.

Lemma values_with_key_nil (k : K) (rows : list (K * V)) :
  values_with_key cmp k rows = [] <-> forall v, ~ In (k, v) rows.
Proof.
  unfold values_with_key. induction rows as [|[k0 v0] rows IH]; simpl.
  - split; [intros _ v [] | reflexivity].
  - destruct (cmp k0 k) eqn:E; simpl.
    + apply cmp_eq in E. subst k0. split; [discriminate|].
      intros H. exfalso. apply (H v0). now left.
    + rewrite IH. split.
      * intros H v [[= -> ->]|Hin]; [now rewrite cmp_refl in E | exact (H v Hin)].
      * intros H v Hin. apply (H v). now right.
    + rewrite IH. split.
      * intros H v [[= -> ->]|Hin]; [now rewrite cmp_refl in E | exact (H v Hin)].
      * intros H v Hin. apply (H v). now right.
Qed.

(** Where the entries of the groups come from when a row is added to
    groups in ascending key order. *)
Lemma add_to_group_cases (k : K) (v : V) (g : list (K * list V)) (k' : K) (vs' : list V) :
  ascending cmp g ->
  In (k', vs') (add_to_group cmp k v g) ->
  (In (k', vs') g /\ k' <> k)
  \/ (k' = k /\ vs' = [v] /\ forall vs0, ~ In (k, vs0) g)
  \/ (k' = k /\ exists vs0, In (k, vs0) g /\ vs' = (vs0 ++ [v])%list).
Proof.
  unfold ascending. induction 1 as [|[k0 vs0] g Hs IH Hall]; simpl.
  - intros [[= <- <-]|[]]. right. left. split; [reflexivity|]. split; [reflexivity|].
    intros vs0 [].
  - rewrite Forall_forall in Hall. destruct (cmp k k0) eqn:E; simpl.
    + apply cmp_eq in E. subst k0. intros [[= <- <-]|Hin].
      * right. right. split; [reflexivity|]. exists vs0. split; [now left | reflexivity].
      * left. split; [now right|]. intros ->.
        exact (cmp_lt_neq _ _ (Hall _ Hin) eq_refl).
    + assert (Hnone : forall x, In x ((k0, vs0) :: g) -> fst x <> k).
      { intros x [<-|Hx]; cbn [fst]; intros Hk.
        - subst k0. now rewrite cmp_refl in E.
        - specialize (Hall x Hx). unfold key_lt in Hall. cbn [fst] in Hall.
          rewrite Hk in Hall. exact (cmp_lt_neq _ _ (cmp_trans _ _ _ E Hall) eq_refl). }
      intros [[= <- <-]|Hin].
      * right. left. split; [reflexivity|]. split; [reflexivity|].
        intros vs1 H1. exact (Hnone _ H1 eq_refl).
      * left. split; [exact Hin|]. exact (Hnone _ Hin).
    + assert (Hk0 : k0 <> k) by (intros ->; now rewrite cmp_refl in E).
      intros [[= <- <-]|Hin]; [left; split; [now left | exact Hk0]|].
      destruct (IH Hin) as [[H1 H2]|[(-> & -> & H3)|(-> & vs1 & H1 & ->)]].
      * left. split; [now right | exact H2].
      * right. left. split; [reflexivity|]. split; [reflexivity|].
        intros vs1 [[= E1 _]|H1]; [now apply Hk0 | exact (H3 vs1 H1)].
      * right. right. split; [reflexivity|]. exists vs1. split; [now right | reflexivity].
Qed.

Lemma add_to_group_has_key (k : K) (v : V) (g : list (K * list V)) (k0 : K) :
  (k0 = k \/ exists vs, In (k0, vs) g) ->
  exists vs', In (k0, vs') (add_to_group cmp k v g).
Proof.
  induction g as [|[k1 vs1] g IH]; simpl.
  - intros [->|[vs []]]. eexists. now left.
  - destruct (cmp k k1) eqn:E.
    + apply cmp_eq in E. subst k1. intros [->|[vs [[= -> ->]|Hin]]].
      * eexists. now left.
      * eexists. now left.
      * exists vs. now right.
    + intros [->|[vs Hin]]; [eexists; now left | exists vs; now right].
    + intros [->|[vs [[= -> ->]|Hin]]].
      * destruct IH as [vs' H]; [now left|]. exists vs'. now right.
      * eexists. now left.
      * destruct IH as [vs' H]; [right; now exists vs|]. exists vs'. now right.
Qed.

Lemma add_to_group_exact (k : K) (v : V) (done : list (K * V)) (g : list (K * list V)) :
  exact_groups cmp done g -> exact_groups cmp (done ++ [(k, v)]) (add_to_group cmp k v g).
Proof.
  intros (Hasc & Hval & Hkey). split; [|split].
  - apply add_to_group_ascending; auto.
  - intros k' vs' Hin. rewrite values_with_key_app.
    unfold values_with_key at 2. cbn [filter fst].
    destruct (add_to_group_cases _ _ _ _ _ Hasc Hin)
      as [[H1 H2]|[(-> & -> & H3)|(-> & vs0 & H1 & ->)]].
    + destruct (cmp k k') eqn:E; [apply cmp_eq in E; congruence| |];
        simpl; rewrite app_nil_r; now apply Hval.
    + rewrite cmp_refl. simpl.
      assert (Hnil : values_with_key cmp k done = []).
      { apply values_with_key_nil. intros v0 Hv0.
        destruct (Hkey _ _ Hv0) as [vs0 Hvs0]. exact (H3 vs0 Hvs0). }
      now rewrite Hnil.
    + rewrite cmp_refl. simpl. now rewrite (Hval _ _ H1).
  - intros k0 v0 Hin. apply in_app_or in Hin. apply add_to_group_has_key.
    destruct Hin as [Hin|[[= -> ->]|[]]]; [right; exact (Hkey _ _ Hin) | now left].
Qed.

Lemma fold_groups_exact (rows done : list (K * V)) (g : list (K * list V)) :
  exact_groups cmp done g ->
  exact_groups cmp (done ++ rows)
    (fold_left (fun g kv => add_to_group cmp (fst kv) (snd kv) g) rows g).
Proof.
  revert done g. induction rows as [|[k v] rows IH]; intros done g Hg; simpl.
  - now rewrite app_nil_r.
  - replace (done ++ (k, v) :: rows)%list with ((done ++ [(k, v)]) ++ rows)%list
      by now rewrite <- app_assoc.
    apply IH. now apply add_to_group_exact.
Qed.

Lemma groupby_exact (rows : list (K * V)) : exact_groups cmp rows (groupby cmp rows).
Proof.
  apply (fold_groups_exact rows []). split; [constructor|].
  split; [intros k vs [] | intros k v []].
Qed.

(** The groups of [groupby]: one for each key that occurs, holding the values
    of the rows with that key in row order. *)
Lemma groupby_In (rows : list (K * V)) (k : K) (vs : list V) :
  In (k, vs) (groupby cmp rows)
  <-> vs <> [] /\ vs = values_with_key cmp k rows.
Proof.
  destruct (groupby_exact rows) as (Hasc & Hval & Hkey). split.
  - intros Hin. split; [|now apply Hval].
    exact (proj1 (groupby_groups cmp cmp_eq rows k vs Hin)).
  - intros [Hne ->].
    destruct (values_with_key cmp k rows) as [|v0 rest] eqn:E; [congruence|].
    assert (Hrow : exists v, In (k, v) rows).
    { assert (Hin : In v0 (values_with_key cmp k rows)) by (rewrite E; now left).
      unfold values_with_key in Hin. apply in_map_iff in Hin.
      destruct Hin as ([k1 v1] & _ & Hf). apply filter_In in Hf.
      destruct Hf as [Hf Heq]. cbn [fst] in Heq.
      destruct (cmp k1 k) eqn:Ek; try discriminate.
      apply cmp_eq in Ek. subst k1. now exists v1. }
    destruct Hrow as [v Hv]. destruct (Hkey _ _ Hv) as [vs Hvs].
    rewrite <- E. now rewrite <- (Hval _ _ Hvs).
Qed.

End GroupByExact.

Lemma add_to_group_insert_key {K V : Type} (cmp : K -> K -> comparison)
    (k : K) (v : V) (g : list (K * list V)) :
  map fst (add_to_group cmp k v g) = insert_key cmp k (map fst g).
Proof.
  induction g as [|[k0 vs0] g IH]; simpl; [reflexivity|].
  destruct (cmp k k0); simpl; [reflexivity | reflexivity | now rewrite IH].
Qed.

(** The keys of [groupby] depend on the key column alone. *)
Lemma groupby_keys {K V : Type} (cmp : K -> K -> comparison) (rows : list (K * V)) :
  map fst (groupby cmp rows) = distinct_keys cmp (map fst rows).
Proof.
  unfold groupby, distinct_keys.
  change (@nil K) with (map fst (@nil (K * list V))).
  generalize (@nil (K * list V)) as g.
  induction rows as [|[k v] rows IH]; intros g; simpl; [reflexivity|].
  now rewrite IH, add_to_group_insert_key.
Qed.

Lemma values_with_key_map {R K V : Type} (cmp : K -> K -> comparison)
    (key : R -> K) (val : R -> V) (k : K) (df : list R) :
  values_with_key cmp k (map (fun r => (key r, val r)) df)
  = map val (filter (fun r => is_eq (cmp (key r) k)) df).
Proof.
  unfold values_with_key. induction df as [|r df IH]; simpl; [reflexivity|].
  destruct (is_eq (cmp (key r) k)); simpl; now rewrite IH.
Qed.

Lemma is_eq_string_compare (a b : string) : is_eq (string_compare a b) = (a =? b)%string.
Proof.
  unfold string_compare. destruct (String_as_OT.compare_spec a b) as [E|E|E]; simpl.
  - change (a = b) in E. subst. now rewrite String.eqb_refl.
  - symmetry. apply String.eqb_neq. intros ->.
    exact (StrictOrder_Irreflexive (R := String_as_OT.lt) _ E).
  - symmetry. apply String.eqb_neq. intros ->.
    exact (StrictOrder_Irreflexive (R := String_as_OT.lt) _ E).
Qed.

Lemma string_compare_refl (a : string) : string_compare a a = Eq.
Proof.
  assert (H := is_eq_string_compare a a). rewrite String.eqb_refl in H.
  now destruct (string_compare a a).
Qed.

Lemma is_eq_Z_compare (a b : Z) : is_eq (a ?= b) = (a =? b).
Proof.
  destruct (Z.compare_spec a b) as [E|E|E]; simpl; symmetry;
    [apply Z.eqb_eq | apply Z.eqb_neq | apply Z.eqb_neq]; lia.
Qed.

Lemma filter_nonempty {A : Type} (f : A -> bool) (l : list A) :
  filter f l <> [] <-> exists x, In x l /\ f x = true.
Proof.
  split.
  - destruct (filter f l) as [|x rest] eqn:E; [congruence|]. intros _.
    exists x. apply filter_In. rewrite E. now left.
  - intros (x & Hx & Hf) E.
    assert (H : In x (filter f l)) by (apply filter_In; now split).
    now rewrite E in H.
Qed.

(** ** The frames behind the charts *)

Lemma province_values (p : string) (df : DataFrame) :
  values_with_key string_compare p (map (fun r => (provincia r, visitantes r)) df)
  = map visitantes (rows_of_province p df).
Proof.
  rewrite values_with_key_map. f_equal. apply filter_ext.
  intros r. apply is_eq_string_compare.
Qed.

Lemma month_values (m : Z) (df : DataFrame) :
  values_with_key Z.compare m (map (fun r => (month_of (data r), visitantes r)) df)
  = map visitantes (rows_of_month m df).
Proof.
  rewrite values_with_key_map. f_equal. apply filter_ext.
  intros r. apply is_eq_Z_compare.
Qed.

Lemma date_values (d : Timestamp) (df : DataFrame) :
  values_with_key Z.compare d (map (fun r => (data r, visitantes r)) df)
  = map visitantes (rows_of_date d df).
Proof.
  rewrite values_with_key_map. f_equal. apply filter_ext.
  intros r. apply is_eq_Z_compare.
Qed.

(** X1: the totals per province, and the totals per date, add up to the
    total of the visitors column shown in the first card. *)
Theorem grouped_totals_add_up :
  forall (df : DataFrame),
    sum (map snd (by_province df)) = total_visitantes df
    /\ sum (map snd (df_mensal df)) = total_visitantes df.
Proof.
  intros df. unfold by_province, df_mensal, total_visitantes.
  rewrite !groupby_sum_total, !map_map. now split.
Qed.

(** The entries of [by_province]. *)
Lemma by_province_In :
  forall (df : DataFrame) (p : string) (t : Z),
    In (p, t) (by_province df)
    <-> (exists r, In r df /\ provincia r = p)
        /\ t = sum (map visitantes (rows_of_province p df)).
Proof.
  intros df p t.
  unfold by_province, groupby_sum. rewrite in_map_iff. split.
  - intros ([k vs] & [= <- <-] & Hin). cbn [fst snd].
    apply (groupby_In string_compare string_compare_eq string_compare_refl
             string_compare_gt string_compare_trans) in Hin.
    destruct Hin as [Hne ->]. rewrite province_values in *. split; [|reflexivity].
    destruct (map visitantes (rows_of_province k df)) eqn:E; [congruence|].
    destruct (rows_of_province k df) as [|r rest] eqn:F; [discriminate|].
    assert (Hr : In r (rows_of_province k df)) by (rewrite F; now left).
    apply filter_In in Hr. destruct Hr as [Hr Hp]. apply String.eqb_eq in Hp.
    now exists r.
  - intros [(r & Hr & Hp) ->].
    exists (p, map visitantes (rows_of_province p df)). split; [reflexivity|].
    apply (groupby_In string_compare string_compare_eq string_compare_refl
             string_compare_gt string_compare_trans).
    rewrite province_values. split; [|reflexivity].
    assert (Hin : In r (rows_of_province p df)).
    { apply filter_In. split; [exact Hr|]. now apply String.eqb_eq. }
    intros E. apply map_eq_nil in E. now rewrite E in Hin.
Qed.

(** X2: [by_province] has one entry for each province that has a row in the
    frame, in ascending lexical order of the names, and the entry of a
    province is the sum of the visitors of its rows. *)
Theorem by_province_exact :
  forall (df : DataFrame),
    ascending string_compare (by_province df)
    /\ forall p t,
         In (p, t) (by_province df)
         <-> (exists r, In r df /\ provincia r = p)
             /\ t = sum (map visitantes (rows_of_province p df)).
Proof.
  intros df. split; [apply by_province_ascending | apply by_province_In].
Qed.

(** X3: [by_month] has one entry for each calendar month that has a row in
    the frame, in ascending month order, and the entry of a month is the mean
    of the visitors over all rows of that month, whatever their year. *)
Theorem by_month_exact :
  forall (df : DataFrame),
    ascending Z.compare (by_month df)
    /\ forall m v,
         In (m, v) (by_month df)
         <-> (exists r, In r df /\ month_of (data r) = m)
             /\ v = Fin (spec_mean (map visitantes (rows_of_month m df))).
Proof.
  intros df. split; [apply by_month_ascending|]. intros m v.
  unfold by_month, groupby_mean. rewrite in_map_iff. split.
  - intros ([k vs] & [= <- <-] & Hin). cbn [fst snd].
    apply (groupby_In Z.compare Z.compare_eq Z.compare_refl
             Z_compare_gt Z_compare_trans) in Hin.
    destruct Hin as [Hne ->]. rewrite month_values in *.
    split; [|now apply mean_nonempty].
    destruct (rows_of_month k df) as [|r rest] eqn:F; [now simpl in Hne|].
    assert (Hr : In r (rows_of_month k df)) by (rewrite F; now left).
    apply filter_In in Hr. destruct Hr as [Hr Hm]. apply Z.eqb_eq in Hm.
    now exists r.
  - intros [(r & Hr & Hm) ->].
    assert (Hin : In r (rows_of_month m df)).
    { apply filter_In. split; [exact Hr|]. now apply Z.eqb_eq. }
    assert (Hne : map visitantes (rows_of_month m df) <> []).
    { intros E. apply map_eq_nil in E. now rewrite E in Hin. }
    exists (m, map visitantes (rows_of_month m df)). split.
    + cbn [fst snd]. now rewrite (mean_nonempty _ Hne).
    + apply (groupby_In Z.compare Z.compare_eq Z.compare_refl
               Z_compare_gt Z_compare_trans).
      rewrite month_values. now split.
Qed.

Lemma df_mensal_ascending (df : DataFrame) : ascending Z.compare (df_mensal df).
Proof.
  apply ascending_map, groupby_ascending;
    [exact Z.compare_eq | exact Z_compare_gt | exact Z_compare_trans].
Qed.

(** The entries of [df_mensal]. *)
Lemma df_mensal_In :
  forall (df : DataFrame) (d : Timestamp) (t : Z),
    In (d, t) (df_mensal df)
    <-> (exists r, In r df /\ data r = d)
        /\ t = sum (map visitantes (rows_of_date d df)).
Proof.
  intros df d t. unfold df_mensal, groupby_sum. rewrite in_map_iff. split.
  - intros ([k vs] & [= <- <-] & Hin). cbn [fst snd].
    apply (groupby_In Z.compare Z.compare_eq Z.compare_refl
             Z_compare_gt Z_compare_trans) in Hin.
    destruct Hin as [Hne ->]. rewrite date_values in *. split; [|reflexivity].
    destruct (rows_of_date k df) as [|r rest] eqn:F; [now simpl in Hne|].
    assert (Hr : In r (rows_of_date k df)) by (rewrite F; now left).
    apply filter_In in Hr. destruct Hr as [Hr Hd]. apply Z.eqb_eq in Hd.
    now exists r.
  - intros [(r & Hr & Hd) ->].
    assert (Hin : In r (rows_of_date d df)).
    { apply filter_In. split; [exact Hr|]. now apply Z.eqb_eq. }
    exists (d, map visitantes (rows_of_date d df)). split; [reflexivity|].
    apply (groupby_In Z.compare Z.compare_eq Z.compare_refl
             Z_compare_gt Z_compare_trans).
    rewrite date_values. split; [|reflexivity].
    intros E. apply map_eq_nil in E. now rewrite E in Hin.
Qed.

(** X4: the frame behind the line chart is chronological: one entry for
    each date that has a row in the frame, in ascending date order, holding
    the sum of the visitors of all provinces on that date. *)
Theorem df_mensal_exact :
  forall (df : DataFrame),
    ascending Z.compare (df_mensal df)
    /\ forall d t,
         In (d, t) (df_mensal df)
         <-> (exists r, In r df /\ data r = d)
             /\ t = sum (map visitantes (rows_of_date d df)).
Proof.
  intros df. split; [apply df_mensal_ascending | apply df_mensal_In].
Qed.

Lemma df_receita_keys (df : DataFrame) :
  map fst (df_receita df) = map fst (by_province df).
Proof.
  unfold df_receita, by_province, groupby_sum.
  rewrite !map_map. cbn [fst].
  change (map (fun x : string * list Qc => fst x)) with (@map (string * list Qc) _ fst).
  change (map (fun x : string * list Z => fst x)) with (@map (string * list Z) _ fst).
  rewrite !groupby_keys, !map_map. reflexivity.
Qed.

(** X5: the revenue frame of line 244 lists the provinces of the visitors
    totals of lines 218 and 289, in the same ascending order of the names.
    The bar chart is drawn from those totals after line 219 has sorted them
    by visitors, descending: it shows the same provinces as the revenue pie,
    in an order that can differ.  On a frame where province B has more
    visitors than province A, the pie lists A, B and the bar chart B, A. *)
Theorem df_receita_provinces_and_bar_chart :
  (forall (df : DataFrame),
     map fst (df_receita df) = map fst (by_province df)
     /\ forall df_provincia,
          sort_values_desc (by_province df) df_provincia ->
          Permutation (map fst (df_receita df)) (map fst df_provincia)
          /\ forall p, In p (map fst df_provincia) <-> In p (map fst (df_receita df)))
  /\ map fst (df_receita [row_A; row_B]) = ["A"; "B"]
  /\ sort_values_desc (by_province [row_A; row_B]) [("B", 20); ("A", 10)]
  /\ forall df_provincia,
       sort_values_desc (by_province [row_A; row_B]) df_provincia ->
       map fst df_provincia = ["B"; "A"].
Proof.
  split; [|split; [|split]].
  - intros df. split; [apply df_receita_keys|].
    intros out [Hp _]. rewrite df_receita_keys.
    assert (Hk : Permutation (map fst (by_province df)) (map fst out))
      by now apply Permutation_map.
    split; [exact Hk|]. intros p. split; intros H.
    + apply (Permutation_in p (Permutation_sym Hk) H).
    + apply (Permutation_in p Hk H).
  - reflexivity.
  - split.
    + change (by_province [row_A; row_B]) with [("A", 10); ("B", 20)].
      apply perm_swap.
    + repeat constructor. cbn. lia.
  - change (by_province [row_A; row_B]) with [("A", 10); ("B", 20)].
    intros out [Hp Hs]. apply Permutation_length_2_inv in Hp.
    destruct Hp as [-> | ->]; [|reflexivity].
    exfalso. inversion Hs as [|x l _ Hall]; subst.
    inversion Hall as [|y l' Hle _]; subst. cbn in Hle. lia.
Qed.

(** ** The filters, continued *)

Lemma series_max_intro (s : list Z) (m : Z) :
  In m s -> (forall x, In x s -> x <= m) -> series_max s = Some m.
Proof.
  intros Hin Hub. destruct (series_max s) as [m'|] eqn:E.
  - destruct (series_max_spec _ _ E) as [Hin' Hub']. f_equal.
    apply Z.le_antisymm; [now apply Hub | now apply Hub'].
  - apply series_max_none in E. subst s. destruct Hin.
Qed.

(** The start date of each period option. *)
Lemma data_inicio_cases (periodo : string) (df : DataFrame) :
  (exists w, window periodo = Some w /\ 0 < w
             /\ data_inicio periodo df = minus_days (series_max (map data df)) w)
  \/ (window periodo = None /\ data_inicio periodo df = series_min (map data df)).
Proof.
  unfold window, data_inicio.
  destruct (periodo =? "Últimos 6 meses")%string;
    [left; exists 180; repeat split; lia|].
  destruct (periodo =? "Último ano")%string;
    [left; exists 365; repeat split; lia|].
  destruct (periodo =? "Últimos 2 anos")%string;
    [left; exists 730; repeat split; lia|].
  right. now split.
Qed.

Lemma period_filter_unbounded (periodo : string) (df : DataFrame) :
  window periodo = None -> period_filter periodo df = df.
Proof.
  intros Hw. destruct (data_inicio_cases periodo df) as [(w & Hw' & _)|[_ Hd]];
    [congruence|].
  unfold period_filter. rewrite Hd. apply filter_all. intros r Hr.
  destruct (series_min (map data df)) as [m|] eqn:E.
  - simpl. apply Z.leb_le. apply (series_min_le _ _ E). now apply in_map.
  - destruct df; [destruct Hr | discriminate].
Qed.

Lemma period_filter_latest (periodo : string) (df : DataFrame) (r : Row) :
  In r df -> (forall r', In r' df -> data r' <= data r) ->
  In r (period_filter periodo df).
Proof.
  intros Hr Hmax.
  destruct (data_inicio_cases periodo df) as [(w & Hw & Hpos & Hd)|[Hw _]].
  - unfold period_filter. apply filter_In. split; [exact Hr|]. rewrite Hd.
    rewrite (series_max_intro (map data df) (data r)).
    + simpl. apply Z.leb_le. lia.
    + now apply in_map.
    + intros x Hx. apply in_map_iff in Hx. destruct Hx as (r' & <- & Hr').
      now apply Hmax.
  - now rewrite (period_filter_unbounded _ _ Hw).
Qed.

Lemma period_filter_nonempty (periodo : string) (df : DataFrame) :
  df <> [] -> period_filter periodo df <> [].
Proof.
  intros Hne E.
  destruct (series_max (map data df)) as [m|] eqn:Em.
  - destruct (series_max_spec _ _ Em) as [Hin Hub].
    apply in_map_iff in Hin. destruct Hin as (r & Hd & Hr).
    assert (Hkeep : In r (period_filter periodo df)).
    { apply period_filter_latest; [exact Hr|]. intros r' Hr'. rewrite Hd.
      apply Hub. now apply in_map. }
    now rewrite E in Hkeep.
  - apply series_max_none in Em. apply map_eq_nil in Em. contradiction.
Qed.

(** X6: whatever the period option, the rows that carry the latest date of
    the frame pass the period filter, so a frame that is not empty is not
    empty after it. *)
Theorem period_filter_keeps_latest :
  forall (periodo : string) (df : DataFrame),
    (forall r, In r df -> (forall r', In r' df -> data r' <= data r) ->
               In r (period_filter periodo df))
    /\ (df <> [] -> period_filter periodo df <> []).
Proof.
  intros periodo df. split.
  - intros r. apply period_filter_latest.
  - apply period_filter_nonempty.
Qed.

(** X7: for any frame in place of the loader's result, the filters and the
    insight section of [main] (lines 132-147, 258-264 and 283-314) raise
    exactly when the province selection leaves no row: the top-destination
    lookup of line 289 then raises [ValueError] and no insight is rendered.
    In every other case, for every period option, they raise nothing and
    the three insights are rendered in order. *)
Theorem insights_raise_iff_selection_empty :
  forall (periodo : string) (sel : list string) (df : DataFrame),
    (province_filter sel df = [] ->
     main_insights (df_filtrado periodo sel df) = ([], Raise ValueError))
    /\ (province_filter sel df <> [] ->
        outcome (main_insights (df_filtrado periodo sel df)) = Ok tt
        /\ exists p m,
             emitted (main_insights (df_filtrado periodo sel df))
             = [TopDestination p;
                Trend (trend_of (delta_visitantes (df_filtrado periodo sel df)))
                      (fabs (delta_visitantes (df_filtrado periodo sel df)));
                PeakSeason m]).
Proof.
  intros periodo sel df. unfold df_filtrado. split.
  - intros ->. reflexivity.
  - intros Hne.
    apply (period_filter_nonempty periodo) in Hne.
    destruct (main_insights_nonempty _ Hne) as (sz & p & m & _ & _ & _ & _ & E).
    rewrite E. split; [reflexivity|]. now exists p, m.
Qed.

Lemma ge_timestamp_mono (d : Z) (t : option Z) (w1 w2 : Z) :
  w1 <= w2 ->
  ge_timestamp d (minus_days t w1) = true -> ge_timestamp d (minus_days t w2) = true.
Proof.
  destruct t as [t|]; simpl; [|discriminate]. rewrite !Z.leb_le. lia.
Qed.

(** X8: the period options are nested: what passes "Últimos 6 meses" passes
    "Último ano", what passes that passes "Últimos 2 anos", and every option
    keeps only rows of the frame. *)
Theorem period_windows_nested :
  forall (df : DataFrame) (r : Row),
    (In r (period_filter "Últimos 6 meses" df) -> In r (period_filter "Último ano" df))
    /\ (In r (period_filter "Último ano" df) -> In r (period_filter "Últimos 2 anos" df))
    /\ (forall periodo, In r (period_filter periodo df) -> In r df).
Proof.
  intros df r. unfold period_filter. split; [|split].
  - rewrite !filter_In. intros [Hr H]. split; [exact Hr|].
    change (data_inicio "Último ano" df)
      with (minus_days (series_max (map data df)) 365).
    change (data_inicio "Últimos 6 meses" df)
      with (minus_days (series_max (map data df)) 180) in H.
    apply (ge_timestamp_mono _ _ 180 365); [lia | exact H].
  - rewrite !filter_In. intros [Hr H]. split; [exact Hr|].
    change (data_inicio "Últimos 2 anos" df)
      with (minus_days (series_max (map data df)) 730).
    change (data_inicio "Último ano" df)
      with (minus_days (series_max (map data df)) 365) in H.
    apply (ge_timestamp_mono _ _ 365 730); [lia | exact H].
  - intros periodo H. now apply filter_In in H.
Qed.

Lemma filter_filter_comm {A : Type} (f g : A -> bool) (l : list A) :
  filter f (filter g l) = filter g (filter f l).
Proof.
  induction l as [|a l IH]; simpl; [reflexivity|].
  destruct (f a) eqn:Ef, (g a) eqn:Eg; simpl; rewrite ?Ef, ?Eg, IH; reflexivity.
Qed.

Lemma filter_idem {A : Type} (f : A -> bool) (l : list A) :
  filter f (filter f l) = filter f l.
Proof.
  apply filter_all. intros x Hx. now apply filter_In in Hx.
Qed.

(** Masking rows leaves the latest date unchanged when a row that carries
    it passes the mask. *)
Lemma series_max_filter (f : Row -> bool) (df : DataFrame) (hoje : Z) :
  series_max (map data df) = Some hoje ->
  (exists r, In r df /\ f r = true /\ data r = hoje) ->
  series_max (map data (filter f df)) = Some hoje.
Proof.
  intros Hmax (r & Hr & Hf & Hd). destruct (series_max_spec _ _ Hmax) as [_ Hub].
  apply series_max_intro.
  - rewrite <- Hd. apply in_map. apply filter_In. now split.
  - intros x Hx. apply in_map_iff in Hx. destruct Hx as (r' & <- & Hr').
    apply filter_In in Hr'. apply Hub. apply in_map. tauto.
Qed.

(** X9: every period option is idempotent: filtering the filtered frame
    again with the same option changes nothing, because the latest date
    survives the first pass. *)
Theorem period_filter_idempotent :
  forall (periodo : string) (df : DataFrame),
    period_filter periodo (period_filter periodo df) = period_filter periodo df.
Proof.
  intros periodo df.
  destruct (data_inicio_cases periodo (period_filter periodo df))
    as [(w & Hw & Hpos & Hd)|[Hw _]];
    [|now apply period_filter_unbounded].
  destruct (series_max (map data df)) as [hoje|] eqn:Em.
  - assert (Hd0 := data_inicio_window periodo w df Hw). rewrite Em in Hd0.
    unfold period_filter at 1. rewrite Hd.
    unfold period_filter at 1. rewrite Hd0.
    rewrite (series_max_filter _ df hoje Em).
    + unfold period_filter. rewrite Hd0. apply filter_idem.
    + destruct (series_max_spec _ _ Em) as [Hin _]. apply in_map_iff in Hin.
      destruct Hin as (r & Hr & Hin). exists r. split; [exact Hin|].
      split; [|exact Hr]. simpl. apply Z.leb_le. lia.
  - apply series_max_none in Em. apply map_eq_nil in Em. now subst df.
Qed.

(** X10: when one of the selected provinces has a row on the latest date of
    the whole store, the order of the two filters does not matter: the
    filtered frame is what the period window taken from the store's latest
    date, followed by the province selection, gives. *)
Theorem filters_commute_on_latest_date :
  forall (periodo : string) (w : Z) (sel : list string) (store : DataFrame) (hoje : Z),
    window periodo = Some w ->
    sel <> [] ->
    series_max (map data store) = Some hoje ->
    (exists r, In r store /\ In (provincia r) sel /\ data r = hoje) ->
    df_filtrado periodo sel store = spec_pipeline w sel store.
Proof.
  intros periodo w sel store hoje Hw Hsel Hmax (r & Hr & Hp & Hd).
  unfold df_filtrado, spec_pipeline, spec_period_filter, period_filter.
  rewrite (data_inicio_window _ _ _ Hw). destruct sel as [|p sel]; [congruence|].
  unfold province_filter.
  rewrite (series_max_filter _ store hoje Hmax), Hmax.
  - apply filter_filter_comm.
  - exists r. split; [exact Hr|]. split; [now apply isin_In | exact Hd].
Qed.

Lemma filters_commute_on_latest_date_witness :
  window "Último ano" = Some 365
  /\ df_filtrado "Último ano" ["A"] [row_A; row_B]
     = spec_pipeline 365 ["A"] [row_A; row_B].
Proof.
  split; [reflexivity|].
  apply (filters_commute_on_latest_date "Último ano" 365 ["A"] [row_A; row_B] 1000).
  - reflexivity.
  - discriminate.
  - reflexivity.
  - exists row_A. split; [now left|]. split; [now left | reflexivity].
Defined.

(** X11: selecting every province that occurs in the frame gives the same
    frame as selecting none, and applying a selection twice is applying it
    once. *)
Theorem province_filter_laws :
  forall (sel : list string) (df : DataFrame),
    ((forall r, In r df -> In (provincia r) sel) ->
     province_filter sel df = province_filter [] df)
    /\ province_filter sel (province_filter sel df) = province_filter sel df.
Proof.
  intros sel df. split.
  - intros Hall. destruct sel as [|p sel]; [reflexivity|].
    unfold province_filter. apply filter_all. intros r Hr.
    apply isin_In. now apply Hall.
  - destruct sel as [|p sel]; [reflexivity|]. unfold province_filter. apply filter_idem.
Qed.

(** ** The delta in terms of the two window sums *)






Lemma trend_of_sign (q : Qc) :
  trend_of (Fin q) = match Qcsign q with
                     | Gt => "crescimento"
                     | _ => "decrescimento"
                     end.
Proof.
  unfold trend_of, of_int, Qcsign. cbn [fgtb]. change (Qc_of_Z 0) with (Q2Qc 0).
  now destruct (Qccompare q (Q2Qc 0)).
Qed.



(** ** The seasonality frame, continued *)

Lemma ascending_bounded_length {X : Type} (l : list (Z * X)) (lo hi : Z) :
  ascending Z.compare l ->
  Forall (fun x => lo <= fst x <= hi) l ->
  Z.of_nat (List.length l) <= Z.max 0 (hi - lo + 1).
Proof.
  unfold ascending. intros Hs. revert lo.
  induction Hs as [|x l Hs IH Hall]; intros lo Hb; simpl List.length; [lia|].
  inversion Hb as [|? ? Hx Hl]; subst.
  assert (Hl' : Forall (fun y => fst x + 1 <= fst y <= hi) l).
  { rewrite Forall_forall in *. intros y Hy. specialize (Hall y Hy).
    assert (Hlt : fst x < fst y) by exact Hall.
    specialize (Hl y Hy). lia. }
  specialize (IH _ Hl'). lia.
Qed.

Lemma getitem_meses_inj (m m' : Z) (nome : string) :
  1 <= m <= 12 -> 1 <= m' <= 12 ->
  getitem meses (m - 1) = Ok nome -> getitem meses (m' - 1) = Ok nome -> m = m'.
Proof.
  intros H H'.
  assert (E : m = 1 \/ m = 2 \/ m = 3 \/ m = 4 \/ m = 5 \/ m = 6 \/ m = 7
              \/ m = 8 \/ m = 9 \/ m = 10 \/ m = 11 \/ m = 12) by lia.
  assert (E' : m' = 1 \/ m' = 2 \/ m' = 3 \/ m' = 4 \/ m' = 5 \/ m' = 6 \/ m' = 7
               \/ m' = 8 \/ m' = 9 \/ m' = 10 \/ m' = 11 \/ m' = 12) by lia.
  clear H H'. intros G G'.
  repeat (destruct E as [E|E]); subst m;
    repeat (destruct E' as [E'|E']); subst m';
    try reflexivity; vm_compute in G, G'; congruence.
Qed.

(** X14: building the seasonality frame never raises: line 264 finds a name
    for every month key.  The frame has one row per entry of [by_month], in
    the same order, at most twelve rows, each named by [meses] at its month,
    and two rows with the same name are rows of the same month. *)
Theorem df_sazonal_never_raises :
  forall (df : DataFrame),
    exists sz,
      df_sazonal df = Ok sz
      /\ map month_and_mean sz = by_month df
      /\ (List.length sz <= 12)%nat
      /\ Forall (fun r => 1 <= mes r <= 12
                          /\ getitem meses (mes r - 1) = Ok (mes_nome r)) sz
      /\ (forall r r', In r sz -> In r' sz -> mes_nome r = mes_nome r' -> mes r = mes r').
Proof.
  intros df. destruct (df_sazonal_total df) as (sz & E & M). exists sz.
  assert (Hnames : Forall (fun r => 1 <= mes r <= 12
                              /\ getitem meses (mes r - 1) = Ok (mes_nome r)) sz).
  { unfold df_sazonal in E. destruct (add_mes_nome_ok _ _ E) as [_ F].
    rewrite Forall_forall in *. intros r Hr. split; [|now apply F].
    assert (Hin : In (month_and_mean r) (by_month df))
      by (rewrite <- M; now apply in_map).
    now destruct (by_month_entry _ _ _ Hin). }
  split; [exact E|]. split; [exact M|]. split; [|split; [exact Hnames|]].
  - assert (Hb : Forall (fun x => 1 <= fst x <= 12) (by_month df)).
    { rewrite Forall_forall. intros [m v] H. now destruct (by_month_entry _ _ _ H). }
    assert (Hlen := ascending_bounded_length (by_month df) 1 12
                      (by_month_ascending df) Hb).
    rewrite <- M, length_map in Hlen. lia.
  - rewrite Forall_forall in Hnames. intros r r' Hr Hr' En.
    destruct (Hnames r Hr) as [Hm Hg]. destruct (Hnames r' Hr') as [Hm' Hg'].
    rewrite <- En in Hg'. exact (getitem_meses_inj _ _ _ Hm Hm' Hg Hg').
Qed.

(** ** Row order *)

Section AscendingUnique.
Context {K X : Type} (cmp : K -> K -> comparison).
Hypothesis cmp_refl : forall a, cmp a a = Eq.
Hypothesis cmp_trans : forall a b c, cmp a b = Lt -> cmp b c = Lt -> cmp a c = Lt.

(** Two lists in strictly ascending key order with the same entries are the
    same list. *)
Lemma ascending_ext (l1 l2 : list (K * X)) :
  ascending cmp l1 -> ascending cmp l2 ->
  (forall x, In x l1 <-> In x l2) -> l1 = l2.
Proof.
  unfold ascending. intros H1. revert l2.
  induction H1 as [|x1 l1 Hs1 IH Hall1]; intros l2 H2 Hin.
  - destruct l2 as [|x2 l2]; [reflexivity|]. exfalso. apply (Hin x2). now left.
  - destruct H2 as [|x2 l2 Hs2 Hall2]; [exfalso; apply (Hin x1); now left|].
    rewrite Forall_forall in Hall1, Hall2.
    assert (Hirr : forall y : K * X, key_lt cmp y y -> False).
    { intros y Hy. unfold key_lt in Hy. rewrite cmp_refl in Hy. discriminate. }
    assert (Hx : x1 = x2).
    { destruct (proj1 (Hin x1) (or_introl eq_refl)) as [E|E1]; [now symmetry|].
      destruct (proj2 (Hin x2) (or_introl eq_refl)) as [E|E2]; [exact E|].
      exfalso. apply (Hirr x1). unfold key_lt in *.
      exact (cmp_trans _ _ _ (Hall1 _ E2) (Hall2 _ E1)). }
    subst x2. f_equal. apply IH; [exact Hs2|]. intros y. split; intros Hy.
    + destruct (proj1 (Hin y) (or_intror Hy)) as [E|E]; [|exact E].
      subst y. exfalso. exact (Hirr _ (Hall1 _ Hy)).
    + destruct (proj2 (Hin y) (or_intror Hy)) as [E|E]; [|exact E].
      subst y. exfalso. exact (Hirr _ (Hall2 _ Hy)).
Qed.

End AscendingUnique.

Lemma Permutation_filter_compat {A : Type} (f : A -> bool) (l l' : list A) :
  Permutation l l' -> Permutation (filter f l) (filter f l').
Proof.
  induction 1 as [|x l l' _ IH|x y l|l l' l'' _ IH1 _ IH2]; simpl.
  - constructor.
  - destruct (f x); [now constructor | exact IH].
  - destruct (f x), (f y); try apply Permutation_refl. apply perm_swap.
  - now apply Permutation_trans with (filter f l').
Qed.

Lemma sum_Permutation (l l' : list Z) : Permutation l l' -> sum l = sum l'.
Proof.
  induction 1 as [|x l l' _ IH|x y l|l l' l'' _ IH1 _ IH2].
  - reflexivity.
  - now rewrite !sum_cons, IH.
  - rewrite !sum_cons. lia.
  - now rewrite IH1.
Qed.

(** X20: the totals per province, the totals per date and the province shown
    as top destination do not depend on the order of the rows of the
    frame. *)
Theorem province_totals_ignore_row_order :
  forall (df df' : DataFrame),
    Permutation df df' ->
    by_province df = by_province df'
    /\ df_mensal df = df_mensal df'
    /\ provincia_top (by_province df) = provincia_top (by_province df').
Proof.
  intros df df' Hperm.
  assert (Hrows : forall (f : Row -> bool),
            sum (map visitantes (filter f df)) = sum (map visitantes (filter f df'))).
  { intros f. apply sum_Permutation, Permutation_map.
    now apply Permutation_filter_compat. }
  assert (Hex : forall (P : Row -> Prop),
            (exists r, In r df /\ P r) <-> (exists r, In r df' /\ P r)).
  { intros P. split; intros (r & Hr & HP); exists r; (split; [|exact HP]).
    - exact (Permutation_in _ Hperm Hr).
    - exact (Permutation_in _ (Permutation_sym Hperm) Hr). }
  assert (Hp : by_province df = by_province df').
  { apply (ascending_ext string_compare string_compare_refl string_compare_trans);
      try apply by_province_ascending.
    intros [p t]. rewrite (by_province_In df p t), (by_province_In df' p t).
    unfold rows_of_province. rewrite Hrows, (Hex (fun r => provincia r = p)). tauto. }
  split; [exact Hp|]. split; [|now rewrite Hp].
  apply (ascending_ext Z.compare Z.compare_refl Z_compare_trans);
    try apply df_mensal_ascending.
  intros [d t]. rewrite (df_mensal_In df d t), (df_mensal_In df' d t).
  unfold rows_of_date. rewrite Hrows, (Hex (fun r => data r = d)). tauto.
Qed.

Lemma province_totals_ignore_row_order_witness :
  Permutation [row_A; row_B] [row_B; row_A]
  /\ by_province [row_A; row_B] = by_province [row_B; row_A].
Proof.
  split; [apply perm_swap|].
  exact (proj1 (province_totals_ignore_row_order _ _ (perm_swap row_B row_A []))).
Defined.

(** ** Where the insights come from *)

Lemma idxmax_In {L V : Type} (gtb : V -> V -> bool) (s : list (L * V)) (k : L) :
  idxmax gtb s = Ok k -> exists v, In (k, v) s.
Proof.
  destruct s as [|x rest]; simpl; [discriminate|]. intros [= <-].
  exists (snd (argmax_from gtb x rest)). rewrite <- surjective_pairing.
  apply argmax_from_In.
Qed.

(** X19: whatever the widgets hold, the province shown as top destination is
    the province of a row that passed both filters, and so one of the
    selected provinces when any is selected; the month shown as peak season
    is the name of the calendar month of a row that passed both filters. *)
Theorem insights_come_from_filtered_rows :
  forall (periodo : string) (sel : list string) (df : DataFrame) (p nome : string),
    In (TopDestination p) (emitted (main periodo sel df)) ->
    In (PeakSeason nome) (emitted (main periodo sel df)) ->
    (exists r, In r (df_filtrado periodo sel df) /\ In r df /\ provincia r = p)
    /\ (sel <> [] -> In p sel)
    /\ (exists r, In r (df_filtrado periodo sel df)
                  /\ getitem meses (month_of (data r) - 1) = Ok nome).
Proof.
  intros periodo sel df p nome Hp Hn. unfold main in *.
  set (f := df_filtrado periodo sel df) in *.
  destruct f as [|r0 f0] eqn:Ef; [destruct Hp|].
  destruct (main_insights_nonempty (r0 :: f0)) as (sz & p0 & m0 & Esz & M & Ep & Em & E);
    [discriminate|].
  rewrite E in Hp, Hn. cbn [emitted fst] in Hp, Hn.
  destruct Hp as [[= <-]|[Hp|[Hp|[]]]]; try discriminate.
  destruct Hn as [Hn|[Hn|[[= <-]|[]]]]; try discriminate.
  assert (Hrow : exists r, In r (r0 :: f0) /\ provincia r = p0).
  { destruct (idxmax_In _ _ _ Ep) as [t Ht].
    now apply by_province_In in Ht. }
  destruct Hrow as (r & Hr & Hpr).
  assert (Hsel : In r (province_filter sel df)).
  { rewrite <- Ef in Hr. unfold f, df_filtrado, period_filter in Hr.
    now apply filter_In in Hr. }
  split; [|split].
  - exists r. split; [exact Hr|]. split; [|exact Hpr].
    destruct sel as [|q sel]; [exact Hsel|].
    unfold province_filter in Hsel. now apply filter_In in Hsel.
  - intros Hne. destruct sel as [|q sel]; [congruence|].
    unfold province_filter in Hsel. apply filter_In in Hsel.
    rewrite <- Hpr. now apply isin_In.
  - destruct (melhor_mes_first_max sz m0 (sazonal_not_nan _ sz M) Em)
      as (sz1 & row & sz2 & Hsz & Hname & _ & _).
    assert (Hin : In row sz) by (rewrite Hsz; apply in_or_app; right; now left).
    assert (Hmm : In (month_and_mean row) (by_month (r0 :: f0)))
      by (rewrite <- M; now apply in_map).
    destruct (by_month_entry _ _ _ Hmm) as (_ & (r' & Hr' & Hm') & _).
    exists r'. split; [exact Hr'|]. rewrite Hm', <- Hname.
    unfold df_sazonal in Esz. destruct (add_mes_nome_ok _ _ Esz) as [_ F].
    rewrite Forall_forall in F. now apply F.
Qed.

Lemma insights_come_from_filtered_rows_witness :
  In (TopDestination "Benguela") (emitted (main "Todos os dados" ["Benguela"; "Luanda"] tie_frame))
  /\ In "Benguela" ["Benguela"; "Luanda"].
Proof.
  assert (E : emitted (main "Todos os dados" ["Benguela"; "Luanda"] tie_frame)
              = [TopDestination "Benguela"; Trend "decrescimento" (of_int 0);
                 PeakSeason "Jan"])
    by (vm_compute; reflexivity).
  assert (H1 : In (TopDestination "Benguela")
                  (emitted (main "Todos os dados" ["Benguela"; "Luanda"] tie_frame)))
    by (rewrite E; left; reflexivity).
  assert (H2 : In (PeakSeason "Jan")
                  (emitted (main "Todos os dados" ["Benguela"; "Luanda"] tie_frame)))
    by (rewrite E; right; right; left; reflexivity).
  split; [exact H1|].
  refine (proj1 (proj2 (insights_come_from_filtered_rows
            "Todos os dados" ["Benguela"; "Luanda"] tie_frame "Benguela" "Jan" H1 H2)) _).
  discriminate.
Defined.

(** ** Runs, event by event *)

Lemma every_bind {E A B : Type} (P : E -> Prop) (m : Run E A) (k : A -> Run E B) :
  every P m -> (forall a, outcome m = Ok a -> every P (k a)) -> every P (bind m k).
Proof.
  unfold every. intros Hm Hk. rewrite emitted_bind. apply Forall_app. split; [exact Hm|].
  destruct (outcome m) as [a|e] eqn:Ho; [now apply Hk | constructor].
Qed.

Lemma every_emit {E : Type} (P : E -> Prop) (e : E) : P e -> every P (emit e).
Proof. intros H. unfold every. simpl. now constructor. Qed.

Lemma every_lift {E A : Type} (P : E -> Prop) (r : result A) : every P (@lift E A r).
Proof. constructor. Qed.

Lemma every_ret {E A : Type} (P : E -> Prop) (a : A) : every P (@ret E A a).
Proof. constructor. Qed.

(** The row that [idxmax] and [loc] pick from a frame with the default
    index: the first row that holds the maximum of the column. *)
Lemma idxmax_loc_first_max {R V A : Type} (gtb : V -> V -> bool) (D : V -> Prop)
    (val : R -> V) (col : R -> A) (df : list R) (i : nat) (a : A) :
  (forall x y, D x -> D y -> gtb x y = true -> gtb y x = false) ->
  (forall x y z, D x -> D y -> D z -> gtb x z = true -> gtb x y = false -> gtb y z = true) ->
  Forall (fun r => D (val r)) df ->
  idxmax gtb (enumerate (map val df)) = Ok i ->
  loc df i col = Ok a ->
  exists d1 r d2,
    df = (d1 ++ r :: d2)%list
    /\ col r = a
    /\ (forall x, In x d1 -> gtb (val r) (val x) = true)
    /\ (forall x, In x d2 -> gtb (val x) (val r) = false).
Proof.
  intros Hasym Hco HD Ei Hloc. set (vals := map val df) in *.
  assert (Hvals : Forall (fun x => D (snd x)) (enumerate vals)).
  { rewrite Forall_forall in *. intros x Hx. apply enumerate_values in Hx.
    apply in_map_iff in Hx. destruct Hx as (r & <- & Hr). now apply HD. }
  destruct (idxmax_first_max gtb D Hasym Hco _ _ Hvals Ei)
    as (v & l1 & l2 & Es & H1 & H2).
  destruct (combine_seq_split _ _ _ _ _ _ Es) as [Hi Hv]. simpl in Hi.
  unfold vals in Hv. apply map_eq_app in Hv. destruct Hv as (d1 & d' & -> & E1 & E').
  apply map_eq_cons in E'. destruct E' as (r & d2 & -> & Er & E2).
  assert (Hlen : List.length d1 = i).
  { rewrite Hi. rewrite <- (length_map val d1), E1. apply length_map. }
  revert Hloc. unfold loc. rewrite nth_error_app2 by lia.
  replace (i - List.length d1)%nat with 0%nat by lia. simpl. intros [= <-].
  exists d1, r, d2. split; [reflexivity|]. split; [reflexivity|]. rewrite Er. split.
  - intros x Hx. assert (Hin : In (val x) (map snd l1)).
    { rewrite <- E1. now apply in_map. }
    apply in_map_iff in Hin. destruct Hin as (y & <- & Hy). exact (H1 y Hy).
  - intros x Hx. assert (Hin : In (val x) (map snd l2)).
    { rewrite <- E2. now apply in_map. }
    apply in_map_iff in Hin. destruct Hin as (y & <- & Hy). exact (H2 y Hy).
Qed.

Lemma Qcsign_mul_pos (a : Qc) (n : Z) :
  0 < n -> Qcsign (a * Qc_of_Z n)%Qc = Qcsign a.
Proof.
  intros Hn. unfold Qcsign, Qccompare, Qcmult, Qc_of_Z, Q2Qc. cbn [this].
  rewrite !Qred_correct. destruct a as [[p q] c]. cbn [this].
  destruct n as [|n|n]; try lia.
  unfold Qcompare, Qmult, inject_Z. cbn.
  rewrite !Z.mul_1_r.
  destruct (Z.compare_spec p 0) as [E|E|E];
    [apply Z.compare_eq_iff | apply Z.compare_lt_iff | apply Z.compare_gt_iff]; nia.
Qed.

(** ** The simplified version, continued *)

Module SimpleMore.
Import Simple SimpleFacts.

Ltac every_steps :=
  repeat first
    [ apply every_emit; reflexivity
    | apply every_lift
    | apply every_ret
    | apply every_bind; [ | intros ? ? ] ].

Lemma table_rows_no_print (df : DataFrame) (i : nat) :
  every (fun ev => is_print (snd ev) = false) (table_rows i df).
Proof.
  revert i. induction df as [|row df IH]; intros i; cbn [table_rows]; [constructor|].
  unfold say. apply every_bind; [now apply every_emit | intros _ _; apply IH].
Qed.

Lemma show_insights_no_print (l : list string) :
  every (fun ev => is_print (snd ev) = false) (show_insights l).
Proof.
  induction l as [|x l IH]; cbn [show_insights]; [constructor|].
  unfold say. apply every_bind; [now apply every_emit | intros _ _; apply IH].
Qed.

(** The Streamlit version writes nothing to the console. *)
Lemma run_streamlit_version_no_print (env : Env) (df : DataFrame) :
  every (fun ev => is_print (snd ev) = false) (run_streamlit_version env df).
Proof.
  unfold run_streamlit_version, generate_sample_data, metric_cards, charts, say.
  destruct (set_page_config_error env); [now apply every_emit|].
  destruct (PANDAS_AVAILABLE env), (PLOTLY_AVAILABLE env), (chart_error env);
    every_steps; first [apply table_rows_no_print | apply show_insights_no_print].
Qed.

(** The console version makes no Streamlit call. *)
Lemma run_console_version_only_prints (env : Env) (df : DataFrame) :
  every (fun ev => is_print (snd ev) = true) (run_console_version env df).
Proof.
  unfold run_console_version, generate_sample_data, show_dependencies_status,
    console_statistics, say.
  destruct (PANDAS_AVAILABLE env); every_steps.
Qed.
Lemma no_print_no_bullets (trace : list Event) :
  Forall (fun ev => is_print (snd ev) = false) trace -> console_insights trace = [].
Proof.
  induction 1 as [|[line c] trace Hc _ IH]; [reflexivity|].
  unfold console_insights in *. cbn [flat_map]. rewrite IH.
  destruct c; try reflexivity; discriminate.
Qed.

Lemma only_prints_no_info (trace : list Event) :
  Forall (fun ev => is_print (snd ev) = true) trace -> streamlit_insights trace = [].
Proof.
  induction 1 as [|[line c] trace Hc _ IH]; [reflexivity|].
  unfold streamlit_insights in *. cbn [flat_map]. rewrite IH.
  destruct c; try reflexivity; discriminate.
Qed.

(** X15: where Streamlit is installed, the Streamlit version never raises:
    an error of [st.set_page_config] or of the charts is caught and shown.
    (Where it is not installed the name [st] is unbound, the function raises
    [NameError], and the script does not call it.)  The console version
    raises, and then a [ValueError], exactly when pandas is installed and
    the frame has no row. *)
Theorem simple_versions_outcomes :
  forall (env : Env) (df : DataFrame),
    (STREAMLIT_AVAILABLE env = true ->
     outcome (run_streamlit_version env df) = Ok tt)
    /\ outcome (run_console_version env df)
       = match PANDAS_AVAILABLE env, df with
         | true, [] => Raise ValueError
         | _, _ => Ok tt
         end.
Proof.
  intros env df. split; [intros _; apply run_streamlit_version_shows|].
  destruct (PANDAS_AVAILABLE env) eqn:Hp.
  - destruct df as [|r df].
    + now apply run_console_version_empty.
    + apply (run_console_version_shows env (r :: df)). right. discriminate.
  - apply (run_console_version_shows env df). now left.
Qed.

Lemma script_trace (env : Env) (df : DataFrame) :
  emitted (script env df)
  = (emitted (show_dependencies_status env)
     ++ if STREAMLIT_AVAILABLE env
        then (316%nat, print [Lit (nl ++ "🚀 Iniciando versão Streamlit...")])
             :: emitted (run_streamlit_version env df)
        else (319%nat,
              print [Lit (nl ++ "🖥️ Streamlit não disponível, executando versão console...")])
             :: emitted (run_console_version env df))%list.
Proof.
  destruct (show_dependencies_status_quiet env) as [Hso _].
  unfold script. rewrite emitted_bind, Hso. f_equal.
  destruct (STREAMLIT_AVAILABLE env); now rewrite emitted_bind.
Qed.

(** X16: the script runs one version only.  With Streamlit installed it
    shows the insights of the Streamlit version and prints no console
    bullet; without it, it prints what the console version prints and makes
    no Streamlit call at all. *)
Theorem script_runs_one_version :
  forall (env : Env) (df : DataFrame),
    (STREAMLIT_AVAILABLE env = true ->
     streamlit_insights (emitted (script env df))
     = streamlit_insights (emitted (run_streamlit_version env df))
     /\ console_insights (emitted (script env df)) = [])
    /\ (STREAMLIT_AVAILABLE env = false ->
        console_insights (emitted (script env df))
        = console_insights (emitted (run_console_version env df))
        /\ Forall (fun ev => is_print (snd ev) = true) (emitted (script env df))).
Proof.
  intros env df.
  destruct (show_dependencies_status_quiet env) as [_ Hsc].
  assert (Hsp : every (fun ev => is_print (snd ev) = true) (show_dependencies_status env)).
  { unfold show_dependencies_status, say. every_steps. }
  rewrite script_trace. split; intros ->.
  - rewrite streamlit_insights_app, console_insights_app, Hsc.
    rewrite (only_prints_no_info (emitted (show_dependencies_status env)) Hsp).
    split; [reflexivity|].
    change (console_insights (?e :: ?t)) with (console_insights t).
    apply no_print_no_bullets. apply run_streamlit_version_no_print.
  - split.
    + now rewrite console_insights_app, Hsc.
    + apply Forall_app. split; [exact Hsp|]. constructor; [reflexivity|].
      apply run_console_version_only_prints.
Qed.

(** X17: the province the console version prints at line 76, under the
    label "Província com Maior Crescimento", is the province of the first
    row that holds the largest number of 2024 visitors; the 2023 column is
    not read for it. *)
Theorem console_names_largest_2024 :
  forall (env : Env) (df : DataFrame) (p : string),
    In (maior_crescimento_line p) (emitted (run_console_version env df)) ->
    exists d1 r d2,
      df = (d1 ++ r :: d2)%list
      /\ Provincia r = p
      /\ (forall x, In x d1 -> Visitantes_2024 x < Visitantes_2024 r)
      /\ (forall x, In x d2 -> Visitantes_2024 x <= Visitantes_2024 r).
Proof.
  intros env df p Hin.
  set (good := fun q : string =>
         exists d1 r d2,
           df = (d1 ++ r :: d2)%list
           /\ Provincia r = q
           /\ (forall x, In x d1 -> Visitantes_2024 x < Visitantes_2024 r)
           /\ (forall x, In x d2 -> Visitantes_2024 x <= Visitantes_2024 r)).
  assert (H : every (fun ev => forall q, ev = maior_crescimento_line q -> good q)
                    (run_console_version env df)).
  { unfold run_console_version, generate_sample_data, show_dependencies_status,
      console_statistics, say, maior_crescimento_line.
    destruct (PANDAS_AVAILABLE env);
      repeat first
        [ apply every_emit; intros q Hq; discriminate Hq
        | apply every_lift
        | apply every_ret
        | apply every_bind; [ | intros ? ? ] ].
    apply every_emit. intros q [= <-].
    match goal with
    | Hi : outcome (lift (idxmax _ _)) = Ok ?i, Hl : outcome (lift (loc _ _ _)) = Ok ?a |- _ =>
        destruct (idxmax_loc_first_max Z.gtb (fun _ => True) Visitantes_2024 Provincia
                    df i a Zgtb_asym Zgtb_cotrans)
          as (d1 & r & d2 & Edf & Hprov & Hbefore & Hafter);
          [ rewrite Forall_forall; intros; exact I | exact Hi | exact Hl | ]
    end.
    exists d1, r, d2. split; [exact Edf|]. split; [exact Hprov|]. split.
    - intros x Hx. specialize (Hbefore x Hx). apply Z.gtb_lt in Hbefore. lia.
    - intros x Hx. specialize (Hafter x Hx). rewrite Z.gtb_ltb in Hafter.
      apply Z.ltb_ge in Hafter. exact Hafter. }
  unfold every in H. rewrite Forall_forall in H. exact (H _ Hin p eq_refl).
Qed.

Lemma console_names_largest_2024_witness :
  In (maior_crescimento_line "Luanda") (emitted (run_console_version env_all sample_data))
  /\ exists d1 r d2,
       sample_data = (d1 ++ r :: d2)%list /\ Provincia r = "Luanda"
       /\ (forall x, In x d1 -> Visitantes_2024 x < Visitantes_2024 r)
       /\ (forall x, In x d2 -> Visitantes_2024 x <= Visitantes_2024 r).
Proof.
  assert (H : In (maior_crescimento_line "Luanda")
                 (emitted (run_console_version env_all sample_data))).
  { vm_compute. do 14 right. left. reflexivity. }
  split; [exact H|].
  exact (console_names_largest_2024 env_all sample_data "Luanda" H).
Defined.

(** X18: the growth figure of the cards is not a finite number exactly when
    the 2023 visitors sum to zero (as on a frame without rows): it is then
    NaN, -inf or +inf by the sign of the 2024 sum, and nothing is raised.
    With a positive 2023 sum it is positive exactly when the 2024 sum is
    larger. *)
Theorem crescimento_special_values :
  forall (df : DataFrame),
    (is_finite (crescimento df) = false <-> sum (map Visitantes_2023 df) = 0)
    /\ (sum (map Visitantes_2023 df) = 0 ->
        crescimento df = match sum (map Visitantes_2024 df) ?= 0 with
                         | Eq => NaN
                         | Lt => NInf
                         | Gt => PInf
                         end)
    /\ (0 < sum (map Visitantes_2023 df) ->
        (fgtb (crescimento df) (of_int 0) = true
         <-> sum (map Visitantes_2023 df) < sum (map Visitantes_2024 df))).
Proof.
  intros df. unfold crescimento.
  set (a := sum (map Visitantes_2023 df)). set (b := sum (map Visitantes_2024 df)).
  assert (Hzero : a = 0 ->
            fmul (fdiv (of_int (b - a)) (of_int a)) (of_int 100)
            = match b ?= 0 with Eq => NaN | Lt => NInf | Gt => PInf end).
  { intros Ha. rewrite Ha, Z.sub_0_r. unfold of_int, fdiv.
    rewrite (Qcsign_of_Z 0), (Qcsign_of_Z b). cbn [Z.compare].
    now destruct (b ?= 0). }
  assert (Hfin : a <> 0 ->
            fmul (fdiv (of_int (b - a)) (of_int a)) (of_int 100)
            = Fin (Qc_of_Z (b - a) / Qc_of_Z a * Qc_of_Z 100)%Qc).
  { intros Ha. unfold of_int, fdiv. rewrite (Qcsign_of_Z a).
    destruct (Z.compare_spec a 0); [congruence | reflexivity | reflexivity]. }
  split; [|split].
  - split.
    + intros Hf. destruct (Z.eq_dec a 0) as [E|E]; [exact E|].
      rewrite (Hfin E) in Hf. discriminate.
    + intros Ha. rewrite (Hzero Ha). now destruct (b ?= 0).
  - exact Hzero.
  - intros Hpos. rewrite Hfin by lia. unfold of_int. cbn [fgtb].
    change (Qccompare ?q (Qc_of_Z 0)) with (Qcsign q).
    rewrite (Qcsign_mul_pos _ 100) by lia. rewrite (Qcsign_div _ _ Hpos), Qcsign_of_Z.
    destruct (Z.compare_spec (b - a) 0) as [Hc|Hc|Hc]; split; intros Hg;
      try discriminate; try reflexivity; lia.
Qed.

End SimpleMore.
